(* ===== verification/_CoqProject ===== *)
-Q . S2P
Prelude.v
Random.v
Ticket.v
Grid.v
Draw.v
Game.v
