(* ===== verification/Prelude.v ===== *)
(** * A verification development of the Loto ticket simulator (src/script.js)

    The program is a browser bingo ("loto") simulator written as one
    JavaScript file, [src/script.js].  It generates tickets of 15 numbers
    of 1..99 ([generateLottoTicket], [generateMultipleTickets]), lays each
    out in a 3x10 grid ([organizeTicket]) that [displayTickets] turns into
    [.ticket] elements, and runs a draw: a [setInterval] timer fires
    [drawItem], which shuffles the pool [items] and pops a number,
    highlights it on the tickets ([highlightTickets]) and flags the tickets
    with a complete row ([checkWinningTickets]), which stops the draw.
    Three buttons drive it: generate (with a count of 1..20), start
    ([startDraw]) and reset ([resetGame]).

    Files, in dependency order, and what each models:

    - [Prelude.v] (this file): the notation scope [loto_scope], the
      JavaScript array primitives the program uses ([js_index] for
      [arr[i]], [includes], [index_of] for [indexOf], [js_min] for
      [Math.min(...arr)], [count_some] for
      [arr.filter(x => x !== null).length]), their lemmas, the hint
      databases [loto] and [loto_rw] and the tactics [loto_simpl] and
      [destruct_digit].
    - [Random.v]: [Math.random] and [generateRandomNumber] (lines 2-4).
      A call of [Math.random()] takes the next element of a supplied
      stream of samples; a sample [s] stands for the double
      [(s mod 2^53) / 2^53], so every integer is a valid draw.
      [Math.floor(Math.random() * k)] is the exact floor [(m * k) / 2^53]:
      the rounding of the floating-point product is not modelled.  Code
      that draws is written in the monad [Rand A := list Z -> option (A *
      list Z)], which threads the remaining samples and fails ([None]) when
      they run out.  The [while] loops of the program are [rwhile], whose
      fuel is one more than the length of the remaining stream: every
      iteration of the loops it models draws at least one sample, so the
      fuel never runs out before the stream does ([rwhile_unfold]).
    - [Ticket.v]: [generateLottoTicket] (lines 7-21), the rejection
      sampling of 15 numbers of 1..99 with at most 3 per column and its
      numeric sort, and [generateMultipleTickets] (lines 24-30).
    - [Grid.v]: [organizeTicket] (lines 33-65): the placement of each
      number in the least-filled row ([place_number]; the row search
      [find_free_row] has fuel 3, which [find_free_row_fuel] shows is
      enough) and the filler loop that completes each row to 5 numbers
      ([fill_row]).
    - [Draw.v]: [generateNumbersList], [shuffleArray] (Fisher-Yates, with
      the destructuring swap) and the pool part of [drawItem]
      (lines 103-138).
    - [Game.v]: the page as a record [game] (the globals [items],
      [gameActive], [drawInterval], the scheduled intervals, [#results],
      the [.ticket] elements with their [highlight] and [winner] classes,
      the start button and the alerts), every handler as a function on it
      ([displayTickets], [drawItem], [highlightTickets],
      [checkWinningTickets], [startDraw], [stopDraw], [resetGame], the
      generate-button handler [onGenerate]; lines 68-100 and 119-236), and
      the event loop as the relation [step] with its reachable pages.

    Theorems, by group:
    - [Random.v]: the range of [generateRandomNumber], and for every value
      of it a sample that produces it.
    - [Ticket.v]: every generated ticket is valid (15 distinct numbers of
      1..99, sorted, at most 3 per column); the sampling loop can finish
      from every state it reaches; every valid ticket is generated, in any
      order of its numbers; a batch of [n] tickets has [n] valid tickets.
    - [Grid.v]: for a valid ticket the placement leaves exactly 5 numbers
      in every row (through an abstraction of one column of the grid and a
      finite check of all the column patterns, [runs_balancedb]), keeps
      every number once in its column, and so the filler loop never runs;
      on any row the filler loop completes it with fillers new to the
      ticket and the row, from the column's band; on a ticket with four
      numbers in one column [organizeTicket] never returns, because the
      placement has only three cells per column
      ([organizeTicket_four_in_column], through the count of free cells
      of a column, [place_all_col_bound]).
    - [Draw.v]: the draws and the pool left always partition the start
      pool; 99 draws draw each of 1..99 exactly once; the shuffle-and-pop
      draw is equivalent to the reference [uniform_pick] (the first
      sample alone decides the number drawn, the pool left agrees up to
      order), through the fact that the shuffle never touches the part of
      the array past its index ([shuffle_loop_suffix]).
    - [Game.v]: in every reachable page the interval discipline holds,
      [#results] and [items] partition 1..99, and the [winner] class is
      exactly the abstract win condition "a row whose 5 numbers are all
      drawn" ([reachable_win_refinement]); the draw always stops within
      [length items + 1] firings; the generator, the packer and the page
      compose: every ticket on a reachable page shows the placement of a
      valid ticket, 5 numbers per row and no filler
      ([reachable_tickets_wf]), so once the pool is empty every ticket is
      a winner ([reachable_exhausted_all_win]); the page refines the
      specification's Idle/Active/Stopped machine of the draw engine: each
      event moves the phase as the engine operation it requests
      ([event_op]) does in the specification's partial transition
      function [spec_next], except start on a stopped draw, which resumes
      it ([step_refines_engine]); and the behaviour of the check, the
      inputs and the buttons on their error paths.

    Findings the theorems record: the filler band of column 9 is 91..100,
    so a filler can be 100, a number that is never drawn
    ([Grid.fill_row_can_write_100]); for the tickets the program generates
    no filler is ever added ([Grid.organizeTicket_no_filler]), so the
    100 is latent: no page ever shows it ([Game.reachable_tickets_wf]); an input of
    0 gives 5 tickets instead of being rejected
    ([Game.onGenerate_default_five]); every ticket winning on the same draw
    is flagged and alerted ([Game.checkWinningTickets_alerts]); the start
    button resumes a draw that a win stopped ([Game.startDraw_resumes]).

    Not modelled: the HTML and CSS, the text of the elements and of the
    alerts (only which alert is shown), the 300 ms period and the 500 ms
    delay of the timers (only the order of the events), and [parseInt] of
    the input string (the handler takes the parsed number, [None] for
    [NaN]). *)

From stdpp Require Import base list.
From Stdlib Require Import ZArith Lia.

Declare Scope loto_scope.
Delimit Scope loto_scope with loto.
Open Scope Z_scope.

Create HintDb loto.
Create Rewrite HintDb loto_rw.

(** ** JavaScript array primitives *)

(** [arr[i]] for an integer index: [undefined] ([None]) outside the
    array. *)
Definition js_index {A} (l : list A) (i : Z) : option A :=
  if 0 <=? i then l !! Z.to_nat i else None.

(** [arr.includes(x)] on numbers. *)
Definition includes (x : Z) (l : list Z) : bool := existsb (Z.eqb x) l.

(** [arr.indexOf(x)]: [None] stands for [-1]. *)
Fixpoint index_of (x : Z) (l : list Z) : option nat :=
  match l with
  | [] => None
  | y :: l' => if Z.eqb x y then Some 0%nat else S <$> index_of x l'
  end.

(** [Math.min(...arr)]: [None] stands for [Infinity], the minimum of no
    argument. *)
Definition js_min (l : list Z) : option Z :=
  match l with
  | [] => None
  | x :: l' => Some (foldl Z.min x l')
  end.

(** [arr.filter(x => x !== null).length] on an array of optional
    numbers. *)
Definition count_some (l : list (option Z)) : nat :=
  length (filter (fun o : option Z => is_Some o) l).

(** ** Lemmas on the primitives *)

Lemma js_index_nat {A} (l : list A) (n : nat) :
  js_index l (Z.of_nat n) = l !! n.
Proof.
  unfold js_index. destruct (Z.leb_spec 0 (Z.of_nat n)); [|lia].
  by rewrite Nat2Z.id.
Qed.

Lemma js_index_neg {A} (l : list A) (i : Z) : i < 0 -> js_index l i = None.
Proof. intros. unfold js_index. destruct (Z.leb_spec 0 i); [lia|done]. Qed.

Lemma includes_spec x l : includes x l = true <-> x ∈ l.
Proof.
  unfold includes. rewrite existsb_exists, list_elem_of_In. split.
  - intros (y & Hy & Heq). apply Z.eqb_eq in Heq. by subst.
  - intros Hx. exists x. split; [done|apply Z.eqb_refl].
Qed.

Lemma includes_false x l : includes x l = false <-> x ∉ l.
Proof. rewrite <-includes_spec. destruct (includes x l); intuition congruence. Qed.

Lemma includes_app x l1 l2 : includes x (l1 ++ l2) = includes x l1 || includes x l2.
Proof. apply existsb_app. Qed.

Lemma index_of_lookup x l n : index_of x l = Some n -> l !! n = Some x.
Proof.
  revert n. induction l as [|y l IH]; intros n; simpl; [done|].
  destruct (Z.eqb_spec x y) as [->|_]; intros H.
  - by injection H as <-.
  - destruct (index_of x l) as [m|] eqn:E; simpl in H; [|done].
    injection H as <-. simpl. by apply IH.
Qed.

Lemma index_of_first x l n :
  index_of x l = Some n -> forall m, (m < n)%nat -> l !! m <> Some x.
Proof.
  revert n. induction l as [|y l IH]; intros n; simpl; [done|].
  destruct (Z.eqb_spec x y) as [->|Hne]; intros H m Hm.
  - injection H as <-. lia.
  - destruct (index_of x l) as [k|] eqn:E; simpl in H; [|done].
    injection H as <-. destruct m as [|m]; simpl.
    + intros [= ->]. done.
    + apply (IH k); [done|lia].
Qed.

Lemma index_of_elem x l : x ∈ l -> is_Some (index_of x l).
Proof.
  induction l as [|y l IH]; simpl; intros Hx; [by apply not_elem_of_nil in Hx|].
  destruct (Z.eqb_spec x y); [by eexists|].
  apply elem_of_cons in Hx as [->|Hx]; [done|].
  destruct (IH Hx) as [k ->]. by eexists.
Qed.

Lemma foldl_min_le_init x l : foldl Z.min x l <= x.
Proof.
  revert x. induction l as [|z l IH]; intros x; simpl; [lia|].
  specialize (IH (Z.min x z)). lia.
Qed.

Lemma foldl_min_le x l : forall y, y ∈ x :: l -> foldl Z.min x l <= y.
Proof.
  revert x. induction l as [|z l IH]; intros x y Hy; simpl.
  - apply list_elem_of_singleton in Hy. lia.
  - pose proof (foldl_min_le_init (Z.min x z) l).
    apply elem_of_cons in Hy as [->|Hy]; [lia|].
    apply elem_of_cons in Hy as [->|Hy]; [lia|].
    apply IH. by right.
Qed.

Lemma foldl_min_elem x l : foldl Z.min x l ∈ x :: l.
Proof.
  revert x. induction l as [|z l IH]; intros x; simpl; [left|].
  specialize (IH (Z.min x z)). apply elem_of_cons in IH as [Hm|Hm].
  - rewrite Hm. destruct (Z.min_spec x z) as [[_ ->]|[_ ->]]; [left|right; left].
  - right; right. done.
Qed.

(** [rows.indexOf(Math.min(...rows))] is the first index holding the
    minimum. *)
Lemma js_min_index_of l m :
  js_min l = Some m -> exists n, index_of m l = Some n /\ l !! n = Some m /\
    (forall k y, l !! k = Some y -> m <= y).
Proof.
  destruct l as [|x l]; simpl; [done|]. intros [= <-].
  destruct (index_of_elem (foldl Z.min x l) (x :: l) (foldl_min_elem x l)) as [n Hn].
  exists n. split; [done|]. split; [by apply index_of_lookup|].
  intros k y Hk. apply foldl_min_le. by eapply list_elem_of_lookup_2.
Qed.

Lemma count_some_cons o l :
  count_some (o :: l) = ((if o is Some _ then 1 else 0) + count_some l)%nat.
Proof. unfold count_some. destruct o; simpl; done. Qed.

Lemma count_some_insert_None l (i : nat) x :
  l !! i = Some None -> count_some (<[i := Some x]> l) = S (count_some l).
Proof.
  revert i. induction l as [|o l IH]; intros [|i]; simpl; try done.
  - intros [= ->]. rewrite !count_some_cons. lia.
  - intros H. rewrite !count_some_cons, IH; [lia|done].
Qed.

Lemma count_some_le l : (count_some l <= length l)%nat.
Proof. unfold count_some. apply length_filter. Qed.

Lemma forallb_Forall {A} (f : A -> bool) l : forallb f l = true <-> Forall (fun x => f x = true) l.
Proof.
  induction l as [|x l IH]; simpl; [split; [constructor|done]|].
  by rewrite andb_true_iff, Forall_cons, IH.
Qed.

(** Carrying a property along a pointwise relation. *)
Lemma Forall2_transport {A B} (R : A -> B -> Prop) (P : A -> Prop) (Q : B -> Prop) l l' :
  Forall2 R l l' -> Forall P l -> (forall a b, R a b -> P a -> Q b) -> Forall Q l'.
Proof. intros HR HP HQ. induction HR; inversion HP; subst; constructor; eauto. Qed.

#[export] Hint Rewrite @js_index_nat count_some_cons : loto_rw.
#[export] Hint Rewrite @length_insert @length_app @length_replicate : loto_rw.
#[export] Hint Resolve index_of_lookup count_some_le : loto.

(** [destruct_digit c] splits a goal on the ten values of a column
    index [0 <= c <= 9] (in the context), substituting each. *)
Ltac destruct_digit c :=
  let H := fresh "Hdigit" in
  assert (c = 0 \/ c = 1 \/ c = 2 \/ c = 3 \/ c = 4 \/ c = 5 \/ c = 6 \/ c = 7 \/
          c = 8 \/ c = 9) as H by lia;
  repeat match type of H with _ \/ _ => destruct H as [H|H] end; subst c.

(** [loto_simpl] normalises the array primitives and closes the
    arithmetic that remains. *)
Ltac loto_simpl :=
  repeat first [progress autorewrite with loto_rw in * | progress simpl in *];
  try lia.
