(* ===== verification/Random.v ===== *)
(** * [Math.random] and [generateRandomNumber] (src/script.js, lines 2-4)

    The random source of the program is [Math.random()].  A run of the
    program draws from a stream of samples: the sample [s] stands for the
    double [m / 2^53] with [m = s mod 2^53], the 53-bit grid of doubles of
    [0, 1).  [Math.floor(Math.random() * k)] is then [(m * k) / 2^53]
    (exact product, floor division).  Code that draws is written in the
    monad [Rand]; [rwhile] is the [while] loop of the program, run with
    the length of the remaining stream as fuel. *)

From stdpp Require Import base list.
From Stdlib Require Import ZArith Lia.
From S2P Require Import Prelude.

Open Scope Z_scope.

(** ** The monad of computations that draw samples *)

Definition Rand (A : Type) : Type := list Z -> option (A * list Z).

Definition rret {A} (x : A) : Rand A := fun rs => Some (x, rs).

Definition rbind {A B} (m : Rand A) (k : A -> Rand B) : Rand B :=
  fun rs => match m rs with Some (x, rs') => k x rs' | None => None end.

Notation "'let*' x := m 'in' k" := (rbind m (fun x => k))
  (at level 10, x name, m at level 100, k at level 200) : loto_scope.
Open Scope loto_scope.

(** One call of [Math.random()]: the 53-bit mantissa [m] of the double
    [m / 2^53]. *)
Definition two53 : Z := 2 ^ 53.

Definition math_random : Rand Z :=
  fun rs => match rs with [] => None | s :: rs' => Some (s mod two53, rs') end.

(** [Math.floor(r * k)] for [r = m / 2^53]. *)
Definition floor_times (m k : Z) : Z := (m * k) / two53.

(** [function generateRandomNumber(min, max) {
       return Math.floor(Math.random() * (max - min + 1)) + min; }] *)
Definition generateRandomNumber (min max : Z) : Rand Z :=
  let* m := math_random in rret (floor_times m (max - min + 1) + min).

(** [Math.floor(Math.random() * k)], the index draw of [organizeTicket]
    and [shuffleArray]. *)
Definition random_index (k : Z) : Rand Z :=
  let* m := math_random in rret (floor_times m k).

(** ** Loops *)

(** [while (cond(s)) s = body(s);] with [fuel] iterations at most. *)
Fixpoint rwhile_fuel {S} (fuel : nat) (cond : S -> bool) (body : S -> Rand S)
    (s : S) : Rand S :=
  fun rs =>
    match fuel with
    | O => None
    | Datatypes.S f =>
        if cond s then
          match body s rs with
          | Some (s', rs') => rwhile_fuel f cond body s' rs'
          | None => None
          end
        else Some (s, rs)
    end.

(** The loop runs with one more iteration than samples are left: a body
    that draws at least once cannot exhaust this fuel before the
    samples. *)
Definition rwhile {S} (cond : S -> bool) (body : S -> Rand S) (s : S) : Rand S :=
  fun rs => rwhile_fuel (Datatypes.S (length rs)) cond body s rs.

(** [for (let i = 0; i < n; i++) out.push(body());] *)
Fixpoint rrepeat {A} (n : nat) (body : Rand A) : Rand (list A) :=
  match n with
  | O => rret []
  | Datatypes.S n' => let* x := body in let* xs := rrepeat n' body in rret (x :: xs)
  end.

(** [arr.forEach(x => ...)] where the callback draws and the results are
    collected in order. *)
Fixpoint rmap {A B} (f : A -> Rand B) (l : list A) : Rand (list B) :=
  match l with
  | [] => rret []
  | x :: l' => let* y := f x in let* ys := rmap f l' in rret (y :: ys)
  end.

(** ** Lemmas on the monad and the loops *)

Lemma rbind_Some {A B} (m : Rand A) (k : A -> Rand B) rs x rs' :
  m rs = Some (x, rs') -> rbind m k rs = k x rs'.
Proof. intros H. unfold rbind. by rewrite H. Qed.

Lemma rbind_inv {A B} (m : Rand A) (k : A -> Rand B) rs y rs'' :
  rbind m k rs = Some (y, rs'') ->
  exists x rs', m rs = Some (x, rs') /\ k x rs' = Some (y, rs'').
Proof. unfold rbind. destruct (m rs) as [[x rs']|]; [eauto|done]. Qed.

Lemma math_random_cons s rs : math_random (s :: rs) = Some (s mod two53, rs).
Proof. done. Qed.

Lemma math_random_inv rs m rs' :
  math_random rs = Some (m, rs') -> exists s, rs = s :: rs' /\ m = s mod two53.
Proof. destruct rs as [|s rs]; simpl; [done|]. intros [= <- <-]. eauto. Qed.

Lemma two53_pos : 0 < two53.
Proof. unfold two53. lia. Qed.

Lemma mantissa_range s : 0 <= s mod two53 < two53.
Proof. apply Z.mod_pos_bound, two53_pos. Qed.

#[export] Hint Resolve two53_pos mantissa_range : loto.

Section Loop.
Context {S : Type} (cond : S -> bool) (body : S -> Rand S).

  (** Every iteration of the body draws at least one sample. *)
Hypothesis body_draws :
    forall s rs s' rs', body s rs = Some (s', rs') -> (length rs' < length rs)%nat.

Lemma rwhile_fuel_irrel f1 f2 s rs :
    (length rs < f1)%nat -> (length rs < f2)%nat ->
    rwhile_fuel f1 cond body s rs = rwhile_fuel f2 cond body s rs.
  Proof.
    revert f2 s rs. induction f1 as [|f1 IH]; intros [|f2] s rs H1 H2; try lia.
    simpl. destruct (cond s); [|done].
    destruct (body s rs) as [[s' rs']|] eqn:E; [|done].
    apply body_draws in E. apply IH; lia.
  Qed.

  (** The loop unfolds like [while]: the fuel never runs out first. *)
Lemma rwhile_unfold s rs :
    rwhile cond body s rs =
      if cond s then
        match body s rs with
        | Some (s', rs') => rwhile cond body s' rs'
        | None => None
        end
      else Some (s, rs).
  Proof.
    unfold rwhile at 1. simpl. destruct (cond s); [|done].
    destruct (body s rs) as [[s' rs']|] eqn:E; [|done].
    apply body_draws in E. apply rwhile_fuel_irrel; lia.
  Qed.

Context (P : S -> Prop).
Hypothesis body_keeps :
    forall s rs s' rs', P s -> cond s = true -> body s rs = Some (s', rs') -> P s'.

  (** A loop invariant holds when the loop exits, with the guard false. *)
Lemma rwhile_invariant s rs s' rs' :
    P s -> rwhile cond body s rs = Some (s', rs') -> P s' /\ cond s' = false.
  Proof.
    unfold rwhile. generalize (Datatypes.S (length rs)) as f.
    intros f. revert s rs. induction f as [|f IH]; intros s rs Hs; simpl; [done|].
    destruct (cond s) eqn:Hc.
    - destruct (body s rs) as [[s1 rs1]|] eqn:E; [|done].
      intros H. eapply IH; [|exact H]. eauto.
    - intros [= <- <-]. done.
  Qed.
End Loop.

(** ** Bounds and reachability of [generateRandomNumber] *)

Lemma floor_times_range m k :
  0 <= m < two53 -> 0 < k -> 0 <= floor_times m k < k.
Proof.
  intros Hm Hk. unfold floor_times. pose proof two53_pos. split.
  - apply Z.div_pos; nia.
  - apply Z.div_lt_upper_bound; nia.
Qed.

(** The sample that makes [Math.floor(Math.random() * k)] return [i]:
    the least mantissa [m] with [m * k >= i * 2^53]. *)
Definition sample_for (k i : Z) : Z := (i * two53 + k - 1) / k.

Lemma sample_for_spec k i :
  0 < k <= two53 -> 0 <= i < k ->
  0 <= sample_for k i < two53 /\ floor_times (sample_for k i) k = i.
Proof.
  intros Hk Hi. unfold sample_for, floor_times.
  set (N := i * two53 + k - 1).
  pose proof (Z.div_mod N k ltac:(lia)) as Hdm.
  pose proof (Z.mod_pos_bound N k ltac:(lia)) as Hmod.
  set (q := N / k) in *. set (r := N mod k) in *.
  pose proof two53_pos. subst N.
  assert (i * two53 <= q * k <= i * two53 + k - 1) by nia.
  assert (0 <= q) by nia.
  split; [nia|].
  symmetry. apply Z.div_unique with (q * k - i * two53); [left; nia | ring].
Qed.

Lemma generateRandomNumber_cons min max s rs :
  generateRandomNumber min max (s :: rs) =
    Some (floor_times (s mod two53) (max - min + 1) + min, rs).
Proof. done. Qed.

Lemma generateRandomNumber_inv min max rs v rs' :
  generateRandomNumber min max rs = Some (v, rs') ->
  exists s, rs = s :: rs' /\ v = floor_times (s mod two53) (max - min + 1) + min.
Proof. destruct rs as [|s rs]; simpl; [done|]. intros [= <- <-]. eauto. Qed.

(** [generateRandomNumber(min, max)] returns an integer of [[min, max]]
    and draws exactly one sample. *)
Lemma generateRandomNumber_bounds min max rs v rs' :
  min <= max ->
  generateRandomNumber min max rs = Some (v, rs') ->
  min <= v <= max /\ length rs = Datatypes.S (length rs').
Proof.
  intros Hle H. apply generateRandomNumber_inv in H as (s & -> & ->).
  pose proof (floor_times_range (s mod two53) (max - min + 1) (mantissa_range s) ltac:(lia)).
  simpl. lia.
Qed.

(** Every value of the range is produced by some sample: the
    generator can reach all of [[min, max]] when the range has at most
    [2^53] values. *)
Lemma generateRandomNumber_reaches min max v rs :
  min <= v <= max -> max - min + 1 <= two53 ->
  generateRandomNumber min max (sample_for (max - min + 1) (v - min) :: rs) = Some (v, rs).
Proof.
  intros Hv Hk. rewrite generateRandomNumber_cons.
  destruct (sample_for_spec (max - min + 1) (v - min)) as [Hr Hf]; [lia|lia|].
  rewrite Z.mod_small by done. rewrite Hf. f_equal. f_equal. lia.
Qed.

Lemma random_index_cons k s rs :
  random_index k (s :: rs) = Some (floor_times (s mod two53) k, rs).
Proof. done. Qed.

(** [rrepeat n body] runs [body] [n] times: the results are [n] values
    of [body]. *)
Lemma rrepeat_spec {A} (P : A -> Prop) n (body : Rand A) rs xs rs' :
  (forall rs x rs', body rs = Some (x, rs') -> P x) ->
  rrepeat n body rs = Some (xs, rs') -> length xs = n /\ Forall P xs.
Proof.
  intros HP. revert rs xs rs'. induction n as [|n IH]; intros rs xs rs' H; simpl in H.
  - injection H as <- _. split; [done|constructor].
  - apply rbind_inv in H as (x & rs1 & Hx & H). apply rbind_inv in H as (ys & rs2 & Hys & [= <- <-]).
    destruct (IH _ _ _ Hys) as [Hl Hf]. split; [simpl; lia|]. constructor; [by eapply HP|done].
Qed.

(** C21: for a range [[min, max]] of at most [2^53] values,
    [generateRandomNumber(min, max)] returns exactly the integers of the
    range: every result lies in [[min, max]], and every integer of
    [[min, max]] is the result of some sample. *)
Theorem generateRandomNumber_range min max :
  min <= max -> max - min + 1 <= two53 ->
  (forall rs v rs', generateRandomNumber min max rs = Some (v, rs') -> min <= v <= max) /\
  (forall v, min <= v <= max -> exists s, forall rs, generateRandomNumber min max (s :: rs) = Some (v, rs)).
Proof.
  intros Hle Hk. split.
  - intros rs v rs' H. by apply generateRandomNumber_bounds in H as [? _].
  - intros v Hv. exists (sample_for (max - min + 1) (v - min)). intros rs.
    by apply generateRandomNumber_reaches.
Qed.

Lemma generateRandomNumber_range_witness :
  1 <= 99 /\ 99 - 1 + 1 <= two53 /\
  (forall rs v rs', generateRandomNumber 1 99 rs = Some (v, rs') -> 1 <= v <= 99) /\
  (forall v, 1 <= v <= 99 -> exists s, forall rs, generateRandomNumber 1 99 (s :: rs) = Some (v, rs)).
Proof.
  assert (H1 : 1 <= 99) by lia. assert (H2 : 99 - 1 + 1 <= two53) by (unfold two53; lia).
  exact (conj H1 (conj H2 (generateRandomNumber_range 1 99 H1 H2))).
Defined.

Lemma rmap_length {A B} (f : A -> Rand B) l rs l' rs' :
  rmap f l rs = Some (l', rs') -> length l' = length l.
Proof.
  revert rs l'. induction l as [|x l IH]; intros rs l' H; simpl in H.
  - by injection H as <- _.
  - apply rbind_inv in H as (y & rs1 & _ & H). apply rbind_inv in H as (ys & rs2 & Hys & [= <- <-]).
    simpl. by rewrite (IH _ _ Hys).
Qed.
