(* ===== verification/Ticket.v ===== *)
(** * [generateLottoTicket] and [generateMultipleTickets]
      (src/script.js, lines 7-30)

    The ticket generator draws numbers of 1..99 until it has 15 of them,
    rejecting a number already on the ticket or whose column (tens band)
    already holds 3 numbers, then sorts the ticket numerically.  The loop
    state is [ticket_state]: the array [ticket] (in push order) and the
    array [columns] of per-column counters.  The ticket invariant
    [valid_ticket] is the contract [Grid.v] relies on. *)

From stdpp Require Import base list sorting.
From Stdlib Require Import ZArith Lia.
From S2P Require Import Prelude Random.

Open Scope Z_scope.
Open Scope loto_scope.

(** ** Columns *)

(** [Math.floor((num - 1) / 10)]: [Z.div] is the floor division. *)
Definition column (num : Z) : Z := (num - 1) / 10.

(** The number of numbers of [t] in column [c]. *)
Definition col_count (t : list Z) (c : Z) : nat :=
  length (filter (fun x => column x = c) t).

(** The per-column counters of [t]: [columns[c]] for [c] in [0..9]. *)
Definition col_counts (t : list Z) : list Z :=
  (fun c => Z.of_nat (col_count t c)) <$> seqZ 0 10.

(** ** The loop of [generateLottoTicket] *)

Record ticket_state := mkTicketState {
  ts_ticket : list Z;     (** [const ticket = [];] *)
  ts_columns : list Z     (** [const columns = Array(10).fill(0);] *)
}.

Definition ticket_init : ticket_state := mkTicketState [] (replicate 10 0).

(** [columns[column] < 3]: [undefined < 3] is [false]. *)
Definition column_has_room (columns : list Z) (c : Z) : bool :=
  match js_index columns c with Some n => n <? 3 | None => false end.

(** [columns[column]++] *)
Definition column_incr (columns : list Z) (c : Z) : list Z :=
  alter (Z.add 1) (Z.to_nat c) columns.

(** [while (ticket.length < 15)] *)
Definition ticket_cond (st : ticket_state) : bool :=
  Z.of_nat (length (ts_ticket st)) <? 15.

(** The body of the loop:
    [const num = generateRandomNumber(1, 99);
     const column = Math.floor((num - 1) / 10);
     if (!ticket.includes(num) && columns[column] < 3) {
       ticket.push(num); columns[column]++; }] *)
Definition ticket_body (st : ticket_state) : Rand ticket_state :=
  let* num := generateRandomNumber 1 99 in
  let c := column num in
  if negb (includes num (ts_ticket st)) && column_has_room (ts_columns st) c
  then rret (mkTicketState (ts_ticket st ++ [num]) (column_incr (ts_columns st) c))
  else rret st.

(** [ticket.sort((a, b) => a - b)]: [a] is placed before [b] when the
    comparator is not positive.  [Array.prototype.sort] is a stable sort,
    as is [merge_sort]; [sort_numeric_unique] shows that every sorted
    permutation is this one, so the choice of algorithm does not
    matter. *)
Definition cmp_le (a b : Z) : Prop := a - b <= 0.

#[export] Instance cmp_le_dec : RelDecision cmp_le.
Proof. intros a b. unfold cmp_le. apply Z.le_dec. Defined.

Definition sort_numeric (l : list Z) : list Z := merge_sort cmp_le l.

Definition generateLottoTicket : Rand (list Z) :=
  let* st := rwhile ticket_cond ticket_body ticket_init in
  rret (sort_numeric (ts_ticket st)).

(** [for (let i = 0; i < numberOfTickets; i++)
       tickets.push(generateLottoTicket());] *)
Definition generateMultipleTickets (numberOfTickets : Z) : Rand (list (list Z)) :=
  rrepeat (Z.to_nat numberOfTickets) generateLottoTicket.

(** ** The ticket contract *)

(** 15 distinct numbers of 1..99, in increasing order, at most 3 in
    each column. *)
Definition valid_ticket (t : list Z) : Prop :=
  length t = 15%nat /\ NoDup t /\ Forall (fun x => 1 <= x <= 99) t /\
  Sorted Z.lt t /\ Forall (fun c => (col_count t c <= 3)%nat) (seqZ 0 10).

#[export] Instance valid_ticket_dec t : Decision (valid_ticket t).
Proof. unfold valid_ticket. apply _. Defined.

(** The stream of samples that makes the loop accept the numbers of [t]
    in order. *)
Definition stream_for (t : list Z) : list Z :=
  (fun x => sample_for 99 (x - 1)) <$> t.

(** ** Lemmas on columns and counters *)

Lemma column_range x : 1 <= x <= 99 -> 0 <= column x <= 9.
Proof. unfold column. intros. Z.div_mod_to_equations. lia. Qed.

(** The band [10c+1 .. 10c+10] is column [c]: [10c+10] included, so
    the filler band of [organizeTicket] is one column. *)
Lemma column_band c x : 10 * c + 1 <= x <= 10 * c + 10 -> column x = c.
Proof. unfold column. intros. Z.div_mod_to_equations. lia. Qed.

Lemma col_count_app t1 t2 c : col_count (t1 ++ t2) c = (col_count t1 c + col_count t2 c)%nat.
Proof. unfold col_count. by rewrite filter_app, length_app. Qed.

Lemma col_count_cons x t c :
  col_count (x :: t) c = ((if decide (column x = c) then 1 else 0) + col_count t c)%nat.
Proof. unfold col_count. rewrite filter_cons. by case_decide. Qed.

Lemma col_count_perm t1 t2 c : t1 ≡ₚ t2 -> col_count t1 c = col_count t2 c.
Proof. intros Hp. unfold col_count. by rewrite Hp. Qed.

Lemma col_count_nil c : col_count [] c = 0%nat.
Proof. done. Qed.

Lemma col_counts_index t c :
  0 <= c <= 9 -> js_index (col_counts t) c = Some (Z.of_nat (col_count t c)).
Proof.
  intros Hc. unfold js_index, col_counts. destruct (Z.leb_spec 0 c); [|lia].
  rewrite list_lookup_fmap, lookup_seqZ_lt by lia. simpl. by rewrite Z2Nat.id by lia.
Qed.

Lemma column_has_room_counts t c :
  0 <= c <= 9 -> column_has_room (col_counts t) c = bool_decide (col_count t c < 3)%nat.
Proof.
  intros Hc. unfold column_has_room. rewrite col_counts_index by done.
  destruct (Z.ltb_spec (Z.of_nat (col_count t c)) 3); symmetry;
    [apply bool_decide_eq_true | apply bool_decide_eq_false]; lia.
Qed.

(** [columns[column]++] keeps the counters equal to the counts. *)
Lemma column_incr_counts t x :
  1 <= x <= 99 -> column_incr (col_counts t) (column x) = col_counts (t ++ [x]).
Proof.
  intros Hx. pose proof (column_range x Hx). apply list_eq. intros i.
  unfold column_incr, col_counts. rewrite list_lookup_alter, !list_lookup_fmap.
  case_decide as Hi.
  - subst i. rewrite lookup_seqZ_lt by lia. simpl.
    rewrite col_count_app, col_count_cons, Z2Nat.id by lia.
    rewrite decide_True by lia. rewrite col_count_nil. f_equal. lia.
  - destruct (seqZ 0 10 !! i) as [c|] eqn:E; simpl; [|done].
    apply lookup_seqZ in E as [-> _]. rewrite col_count_app, col_count_cons.
    rewrite decide_False by lia. rewrite col_count_nil. f_equal. lia.
Qed.

(** ** The loop invariant *)

Definition ts_inv (st : ticket_state) : Prop :=
  NoDup (ts_ticket st) /\ Forall (fun x => 1 <= x <= 99) (ts_ticket st) /\
  ts_columns st = col_counts (ts_ticket st) /\
  (forall c, (col_count (ts_ticket st) c <= 3)%nat) /\
  (length (ts_ticket st) <= 15)%nat.

Lemma ticket_init_inv : ts_inv ticket_init.
Proof.
  split; [constructor|]. split; [constructor|].
  split; [vm_compute; reflexivity|]. split; [intros c; rewrite col_count_nil|]; simpl; lia.
Qed.

(** One iteration draws one number of 1..99 and either pushes it, when
    it is new and its column has room, or leaves the state unchanged. *)
Lemma ticket_body_cases st rs st' rs' :
  ticket_body st rs = Some (st', rs') ->
  exists num, 1 <= num <= 99 /\ length rs = Datatypes.S (length rs') /\
    ((negb (includes num (ts_ticket st)) && column_has_room (ts_columns st) (column num) = true /\
      st' = mkTicketState (ts_ticket st ++ [num]) (column_incr (ts_columns st) (column num))) \/
     (negb (includes num (ts_ticket st)) && column_has_room (ts_columns st) (column num) = false /\
      st' = st)).
Proof.
  unfold ticket_body. intros H. apply rbind_inv in H as (num & rs1 & Hg & Hk).
  apply generateRandomNumber_bounds in Hg as [Hr Hl]; [|lia].
  exists num. split; [done|].
  destruct (negb _ && _) eqn:E; injection Hk as <- <-; split; auto.
Qed.

Lemma ticket_body_draws st rs st' rs' :
  ticket_body st rs = Some (st', rs') -> (length rs' < length rs)%nat.
Proof. intros H. apply ticket_body_cases in H as (? & ? & ? & ?). lia. Qed.

Lemma ticket_body_keeps st rs st' rs' :
  ts_inv st -> ticket_cond st = true -> ticket_body st rs = Some (st', rs') -> ts_inv st'.
Proof.
  intros (Hnd & Hr & Hcols & Hc3 & Hlen) Hcond H.
  apply ticket_body_cases in H as (num & Hnum & _ & [[Hacc ->]|[_ ->]]);
    [|by repeat split].
  unfold ticket_cond in Hcond. apply Z.ltb_lt in Hcond.
  apply andb_true_iff in Hacc as [Hnew Hroom].
  apply negb_true_iff, includes_false in Hnew.
  rewrite Hcols, column_has_room_counts in Hroom by (by apply column_range).
  apply bool_decide_eq_true in Hroom.
  repeat split; simpl.
  - apply NoDup_app. repeat split; [done| |apply NoDup_singleton].
    intros y Hy ->%list_elem_of_singleton. done.
  - apply Forall_app. split; [done|]. by constructor.
  - rewrite Hcols. by apply column_incr_counts.
  - intros c. rewrite col_count_app, col_count_cons, col_count_nil.
    specialize (Hc3 c). case_decide; [subst; lia|lia].
  - rewrite length_app. simpl. lia.
Qed.

(** ** The numeric sort *)

#[export] Instance cmp_le_total : Total cmp_le.
Proof. intros a b. unfold cmp_le. lia. Qed.
#[export] Instance cmp_le_trans : Transitive cmp_le.
Proof. intros a b c. unfold cmp_le. lia. Qed.
#[export] Instance cmp_le_antisymm : AntiSymm eq cmp_le.
Proof. intros a b. unfold cmp_le. lia. Qed.

Lemma Sorted_weaken {A} (R R' : relation A) l :
  (forall x y, R x y -> R' x y) -> Sorted R l -> Sorted R' l.
Proof.
  intros HR. induction 1 as [|x l _ IH Hhd]; constructor; [done|].
  destruct Hhd; constructor. auto.
Qed.

Lemma Sorted_cmp_le_lt l : Sorted cmp_le l -> NoDup l -> Sorted Z.lt l.
Proof.
  induction 1 as [|x l _ IH Hhd]; intros Hnd; constructor.
  - apply IH. by apply NoDup_cons in Hnd as [_ ?].
  - destruct Hhd as [|y l' Hxy]; constructor.
    apply NoDup_cons in Hnd as [Hx _]. unfold cmp_le in Hxy.
    assert (x <> y) by (intros ->; apply Hx; left). lia.
Qed.

Lemma sort_numeric_perm l : sort_numeric l ≡ₚ l.
Proof. apply merge_sort_Permutation. Qed.

(** Any sorted permutation of [l] is [sort_numeric l]: the model of
    [ticket.sort((a, b) => a - b)] does not depend on the sorting
    algorithm. *)
Lemma sort_numeric_unique l l' : Sorted cmp_le l' -> l' ≡ₚ l -> l' = sort_numeric l.
Proof.
  intros Hs Hp. apply (Sorted_unique cmp_le); [done|apply Sorted_merge_sort; apply _|].
  by rewrite sort_numeric_perm.
Qed.

(** Sorting 15 distinct numbers of 1..99 with at most 3 per column gives
    a valid ticket. *)
Lemma sort_numeric_valid l :
  length l = 15%nat -> NoDup l -> Forall (fun x => 1 <= x <= 99) l ->
  (forall c, (col_count l c <= 3)%nat) -> valid_ticket (sort_numeric l).
Proof.
  intros Hlen Hnd Hr Hc. pose proof (sort_numeric_perm l) as Hp.
  assert (NoDup (sort_numeric l)) by (by rewrite Hp).
  repeat split.
  - by rewrite Hp.
  - done.
  - by rewrite Hp.
  - apply Sorted_cmp_le_lt; [apply Sorted_merge_sort; apply _|done].
  - apply Forall_forall. intros c _. by rewrite (col_count_perm _ _ _ Hp).
Qed.

(** ** Correctness of [generateLottoTicket] *)

Lemma generateLottoTicket_ok rs t rs' :
  generateLottoTicket rs = Some (t, rs') -> valid_ticket t.
Proof.
  unfold generateLottoTicket. intros H. apply rbind_inv in H as (st & rs1 & Hl & [= <- _]).
  destruct (rwhile_invariant ticket_cond ticket_body ts_inv
              ticket_body_keeps ticket_init rs st rs1 ticket_init_inv Hl)
    as [(Hnd & Hr & _ & Hc & Hlen) Hcond].
  unfold ticket_cond in Hcond. apply Z.ltb_ge in Hcond.
  apply sort_numeric_valid; auto. lia.
Qed.

(** C2: every ticket [generateLottoTicket] returns has 15 distinct numbers
    of 1..99, sorted in increasing order, at most 3 in each column. *)
Theorem generateLottoTicket_valid rs t rs' :
  generateLottoTicket rs = Some (t, rs') -> valid_ticket t.
Proof. apply generateLottoTicket_ok. Qed.

(** ** Progress, termination and completeness of the sampling loop *)

Lemma sum_list_with_lower {A} (f : A -> nat) n l :
  Forall (fun x => n <= f x)%nat l -> (length l * n <= sum_list_with f l)%nat.
Proof. induction 1; simpl; lia. Qed.

Lemma sum_col_counts_cons x t cs :
  sum_list_with (col_count (x :: t)) cs =
    (sum_list_with (fun c => if decide (column x = c) then 1%nat else 0%nat) cs +
     sum_list_with (col_count t) cs)%nat.
Proof. induction cs as [|c cs IH]; simpl; [done|]. rewrite col_count_cons, IH. lia. Qed.

Lemma column_indicator_sum k :
  0 <= k <= 9 -> sum_list_with (fun c => if decide (k = c) then 1%nat else 0%nat) (seqZ 0 10) = 1%nat.
Proof.
  intros Hk. destruct_digit k; reflexivity.
Qed.

(** The counters of the ten columns add up to the ticket's length. *)
Lemma sum_col_counts t :
  Forall (fun x => 1 <= x <= 99) t -> sum_list_with (col_count t) (seqZ 0 10) = length t.
Proof.
  induction 1 as [|x t Hx _ IH]; [reflexivity|].
  rewrite sum_col_counts_cons, IH, column_indicator_sum by (by apply column_range).
  done.
Qed.

(** A ticket of fewer than 15 numbers has a column with room. *)
Lemma column_with_room t :
  Forall (fun x => 1 <= x <= 99) t -> (length t < 15)%nat ->
  exists c, 0 <= c <= 9 /\ (col_count t c < 3)%nat.
Proof.
  intros Hr Hl.
  destruct (decide (Forall (fun c => 3 <= col_count t c)%nat (seqZ 0 10))) as [Hall|Hnot].
  - exfalso. apply (sum_list_with_lower (col_count t)) in Hall.
    rewrite sum_col_counts, length_seqZ in Hall by done. simpl in Hall. lia.
  - apply not_Forall_Exists in Hnot; [|apply _].
    apply Exists_exists in Hnot as (c & Hc & Hlt).
    apply elem_of_seqZ in Hc. exists c. split; [lia|]. simpl in Hlt. lia.
Qed.

(** A column with room has a number of 1..99 not yet on the ticket. *)
Lemma free_number_in_column t c :
  0 <= c <= 9 -> (col_count t c < 3)%nat ->
  exists num, 10 * c + 1 <= num <= 10 * c + 9 /\ num ∉ t.
Proof.
  intros Hc Hlt.
  destruct (decide (Forall (fun x => x ∈ t) (seqZ (10 * c + 1) 9))) as [Hall|Hnot].
  - exfalso.
    assert (length (seqZ (10 * c + 1) 9) <= col_count t c)%nat as Hle.
    { unfold col_count. apply NoDup_incl_length; [apply NoDup_ListNoDup, NoDup_seqZ|].
      intros x Hx. apply list_elem_of_In in Hx. apply list_elem_of_In, list_elem_of_filter.
      rewrite Forall_forall in Hall. split; [|by apply Hall].
      apply elem_of_seqZ in Hx. apply column_band. lia. }
    rewrite length_seqZ in Hle. simpl in Hle. lia.
  - apply not_Forall_Exists in Hnot; [|apply _].
    apply Exists_exists in Hnot as (num & Hin & Hn).
    apply elem_of_seqZ in Hin. exists num. split; [lia|done].
Qed.

(** The sample [sample_for 99 (num - 1)] makes the loop push [num]. *)
Lemma ticket_body_accept t num rs :
  1 <= num <= 99 -> num ∉ t -> (col_count t (column num) < 3)%nat ->
  ticket_body (mkTicketState t (col_counts t)) (sample_for 99 (num - 1) :: rs) =
    Some (mkTicketState (t ++ [num]) (col_counts (t ++ [num])), rs).
Proof.
  intros Hr Hn Hc. unfold ticket_body.
  rewrite (rbind_Some _ _ _ num rs) by (apply (generateRandomNumber_reaches 1 99); unfold two53; lia).
  cbn [ts_ticket ts_columns].
  rewrite (proj2 (includes_false num t) Hn), column_has_room_counts by (by apply column_range).
  rewrite bool_decide_eq_true_2 by done. simpl. by rewrite column_incr_counts.
Qed.

Lemma ticket_body_progress st :
  ts_inv st -> ticket_cond st = true ->
  exists s num, forall rs,
    ticket_body st (s :: rs) =
      Some (mkTicketState (ts_ticket st ++ [num]) (col_counts (ts_ticket st ++ [num])), rs).
Proof.
  destruct st as [t cols]. intros (Hnd & Hr & Hcols & Hc & Hlen) Hcond. simpl in *. subst cols.
  unfold ticket_cond in Hcond. simpl in Hcond. apply Z.ltb_lt in Hcond.
  destruct (column_with_room t Hr ltac:(lia)) as (c & Hc9 & Hroom).
  destruct (free_number_in_column t c Hc9 Hroom) as (num & Hnum & Hn).
  assert (column num = c) as Hcol by (apply column_band; lia).
  exists (sample_for 99 (num - 1)), num. intros rs.
  apply ticket_body_accept; [lia|done|by rewrite Hcol].
Qed.

(** C4: the sampling loop never gets stuck: from every state that satisfies
    the invariant (every state the loop reaches), some continuation of
    the random stream makes it finish with 15 numbers. *)
Theorem ticket_loop_terminates st rs :
  ts_inv st ->
  exists pre st', rwhile ticket_cond ticket_body st (pre ++ rs) = Some (st', rs) /\
    ts_inv st' /\ length (ts_ticket st') = 15%nat.
Proof.
  remember (15 - length (ts_ticket st))%nat as k eqn:Hk. revert st Hk.
  induction k as [|k IH]; intros st Hk Hinv.
  - exists []. exists st. simpl. rewrite rwhile_unfold by apply ticket_body_draws.
    destruct Hinv as (? & ? & ? & ? & Hlen).
    assert (ticket_cond st = false) as -> by (unfold ticket_cond; apply Z.ltb_ge; lia).
    repeat split; auto. lia.
  - destruct (ticket_cond st) eqn:Hcond.
    + destruct (ticket_body_progress st Hinv Hcond) as (s & num & Hbody).
      pose proof (Hbody []) as Hb0.
      assert (Hinv1 := ticket_body_keeps _ _ _ _ Hinv Hcond Hb0).
      destruct (IH (mkTicketState (ts_ticket st ++ [num]) (col_counts (ts_ticket st ++ [num]))) ltac:(cbn [ts_ticket]; rewrite length_app; simpl; lia) Hinv1) as (pre & st' & Hrun & Hinv').
      exists (s :: pre), st'. simpl. rewrite rwhile_unfold by apply ticket_body_draws.
      by rewrite Hcond, Hbody.
    + destruct Hinv as (? & ? & ? & ? & Hlen).
      unfold ticket_cond in Hcond. apply Z.ltb_ge in Hcond. lia.
Qed.

Lemma ticket_loop_accepts p q rs :
  NoDup (p ++ q) -> Forall (fun x => 1 <= x <= 99) (p ++ q) ->
  (forall c, (col_count (p ++ q) c <= 3)%nat) -> length (p ++ q) = 15%nat ->
  rwhile ticket_cond ticket_body (mkTicketState p (col_counts p)) (stream_for q ++ rs) =
    Some (mkTicketState (p ++ q) (col_counts (p ++ q)), rs).
Proof.
  revert p. induction q as [|x q IH]; intros p Hnd Hr Hc Hlen;
    rewrite rwhile_unfold by apply ticket_body_draws; unfold ticket_cond; simpl.
  - rewrite app_nil_r in *. rewrite Hlen. reflexivity.
  - rewrite length_app in Hlen. simpl in Hlen.
    assert ((Z.of_nat (length p) <? 15) = true) as -> by (apply Z.ltb_lt; lia).
    apply Forall_app in Hr as [Hrp Hrq]. apply Forall_cons in Hrq as [Hx Hrq].
    apply NoDup_app in Hnd as (Hndp & Hdisj & Hndq).
    specialize (Hc (column x)) as Hcx.
    rewrite col_count_app, col_count_cons, decide_True in Hcx by done.
    rewrite ticket_body_accept; [|done| |lia].
    + replace (p ++ x :: q) with ((p ++ [x]) ++ q) by (by rewrite <-app_assoc).
      apply IH; rewrite <-?app_assoc; simpl; auto.
      * apply NoDup_app. done.
      * apply Forall_app. split; [done|by constructor].
      * rewrite length_app. simpl. lia.
    + intros Hxp. apply (Hdisj x Hxp). left.
Qed.

Lemma col_count_out t c :
  Forall (fun x => 1 <= x <= 99) t -> ~ (0 <= c <= 9) -> col_count t c = 0%nat.
Proof.
  induction 1 as [|x t Hx _ IH]; intros Hc; [done|].
  rewrite col_count_cons, IH, decide_False by (pose proof (column_range x Hx); lia). done.
Qed.

(** The column bound of [valid_ticket], stated for every column. *)
Lemma valid_col_count t c :
  Forall (fun x => 1 <= x <= 99) t -> Forall (fun c => (col_count t c <= 3)%nat) (seqZ 0 10) ->
  (col_count t c <= 3)%nat.
Proof.
  intros Hr Hc. destruct (decide (0 <= c <= 9)) as [Hc9|Hc9].
  - rewrite Forall_forall in Hc. apply Hc, elem_of_seqZ. lia.
  - rewrite col_count_out by done. lia.
Qed.

(** C5: every valid ticket is a possible result: whatever the order [q] in
    which its numbers are drawn, the generator returns exactly that
    ticket, sorted, and draws nothing more. *)
Theorem generateLottoTicket_complete t q rs :
  valid_ticket t -> q ≡ₚ t -> generateLottoTicket (stream_for q ++ rs) = Some (t, rs).
Proof.
  intros (Hlen & Hnd & Hr & Hs & Hc) Hp. unfold generateLottoTicket.
  change ticket_init with (mkTicketState [] (col_counts [])).
  rewrite (rbind_Some _ _ _ (mkTicketState q (col_counts q)) rs).
  - unfold rret. do 2 f_equal. symmetry. apply sort_numeric_unique; [|done].
    apply (Sorted_weaken Z.lt); [unfold cmp_le; lia|done].
  - apply (ticket_loop_accepts [] q rs); simpl.
    + by rewrite Hp.
    + by rewrite Hp.
    + intros c. rewrite (col_count_perm _ _ _ Hp). by apply valid_col_count.
    + by rewrite Hp.
Qed.

Lemma generateMultipleTickets_ok n rs ts rs' :
  generateMultipleTickets n rs = Some (ts, rs') ->
  length ts = Z.to_nat n /\ Forall valid_ticket ts.
Proof.
  unfold generateMultipleTickets. apply rrepeat_spec.
  intros rs1 t rs2. apply generateLottoTicket_ok.
Qed.

(** C20: [generateMultipleTickets(n)] returns [n] tickets (none for [n <= 0]),
    each of them valid. *)
Theorem generateMultipleTickets_valid n rs ts rs' :
  generateMultipleTickets n rs = Some (ts, rs') ->
  length ts = Z.to_nat n /\ Forall valid_ticket ts.
Proof. apply generateMultipleTickets_ok. Qed.

(** ** Witnesses *)

(** A valid ticket, used by the witnesses. *)
Definition ex_ticket : list Z := [3; 5; 12; 19; 22; 31; 40; 41; 44; 58; 67; 71; 83; 88; 95].

Lemma generateLottoTicket_valid_witness :
  generateLottoTicket (stream_for (rev ex_ticket)) = Some (ex_ticket, []) /\ valid_ticket ex_ticket.
Proof.
  assert (H : generateLottoTicket (stream_for (rev ex_ticket)) = Some (ex_ticket, []))
    by (vm_compute; reflexivity).
  exact (conj H (generateLottoTicket_valid _ _ _ H)).
Defined.

Lemma ticket_loop_terminates_witness :
  ts_inv ticket_init /\
  exists pre st', rwhile ticket_cond ticket_body ticket_init (pre ++ []) = Some (st', []) /\
    ts_inv st' /\ length (ts_ticket st') = 15%nat.
Proof.
  assert (H : ts_inv ticket_init).
  { split; [constructor|]. split; [constructor|].
    split; [vm_compute; reflexivity|]. split; [intros c; vm_compute; lia|]. simpl; lia. }
  exact (conj H (ticket_loop_terminates ticket_init [] H)).
Defined.

Lemma generateLottoTicket_complete_witness :
  valid_ticket ex_ticket /\ rev ex_ticket ≡ₚ ex_ticket /\
  generateLottoTicket (stream_for (rev ex_ticket) ++ [7]) = Some (ex_ticket, [7]).
Proof.
  assert (H1 : valid_ticket ex_ticket) by (apply (bool_decide_unpack _); vm_compute; reflexivity).
  assert (H2 : rev ex_ticket ≡ₚ ex_ticket) by (apply (bool_decide_unpack _); vm_compute; reflexivity).
  exact (conj H1 (conj H2 (generateLottoTicket_complete ex_ticket (rev ex_ticket) [7] H1 H2))).
Defined.

Lemma generateMultipleTickets_valid_witness :
  generateMultipleTickets 2 (stream_for ex_ticket ++ stream_for (rev ex_ticket)) =
    Some ([ex_ticket; ex_ticket], []) /\
  length [ex_ticket; ex_ticket] = Z.to_nat 2 /\ Forall valid_ticket [ex_ticket; ex_ticket].
Proof.
  assert (H : generateMultipleTickets 2 (stream_for ex_ticket ++ stream_for (rev ex_ticket)) =
    Some ([ex_ticket; ex_ticket], [])) by (vm_compute; reflexivity).
  exact (conj H (generateMultipleTickets_valid _ _ _ _ H)).
Defined.
