(* ===== verification/Grid.v ===== *)
(** * [organizeTicket] (src/script.js, lines 33-65)

    A ticket is laid out in a 3x10 grid ([organizedTicket], a [grid] of
    rows of optional numbers, [None] for [null]).  Phase 1 places the
    ticket's numbers in order: a number goes to the column of its tens
    band, in the row with the fewest numbers so far (first such row), or,
    when that cell is taken, in the next row cyclically.  Phase 2 fills
    each row up to 5 numbers with random filler numbers drawn from the
    band of a random empty column, rejecting a filler already on the
    ticket or in the row.

    Phase 1 is a pure function ([place_all]); its inner [while] loop is
    [find_free_row] with fuel 3, which is exact: [find_free_row_fuel]
    shows that more fuel gives the same answer, so [None] means the
    JavaScript loop never ends.  The proof that every row gets at most 5
    numbers goes through an abstraction of one step to the row counters
    and the occupancy of the current column ([astep]). *)

From stdpp Require Import base list sorting.
From Stdlib Require Import ZArith Lia.
From S2P Require Import Prelude Random Ticket.

Open Scope Z_scope.
Open Scope loto_scope.

(** ** Data *)

Abbreviation row := (list (option Z)).
Abbreviation grid := (list row).

(** [Array.from({ length: 3 }, () => Array(10).fill(null))]: three
    distinct arrays, so the rows are not aliased. *)
Definition empty_grid : grid := replicate 3 (replicate 10 None).

(** [const rows = [0, 0, 0];] *)
Definition rows_init : list Z := [0; 0; 0].

(** ** Phase 1: placing the ticket's numbers *)

(** [while (organizedTicket[row][column] !== null) row = (row + 1) % 3;]
    An [undefined] cell (a column outside 0..9) is [!== null], so the
    loop moves on; an [undefined] row would throw.  [None]: the loop
    does not end within [fuel] iterations. *)
Fixpoint find_free_row (fuel : nat) (g : grid) (r : nat) (c : Z) : option nat :=
  match fuel with
  | O => None
  | S f =>
      match g !! r with
      | None => None
      | Some rw =>
          match js_index rw c with
          | Some None => Some r
          | _ => find_free_row f g ((r + 1) mod 3)%nat c
          end
      end
  end.

(** [organizedTicket[row][column] = num;] *)
Definition grid_set (g : grid) (r : nat) (c : Z) (num : Z) : grid :=
  alter (fun rw => <[Z.to_nat c := Some num]> rw) r g.

(** One call of the [ticket.forEach] callback:
    [const column = Math.floor((num - 1) / 10);
     let row = rows.indexOf(Math.min(...rows));
     while (...) row = (row + 1) % 3;
     organizedTicket[row][column] = num; rows[row]++;] *)
Definition place_number (st : grid * list Z) (num : Z) : option (grid * list Z) :=
  let '(g, rows) := st in
  let c := column num in
  match js_min rows with
  | None => None
  | Some m =>
      match index_of m rows with
      | None => None
      | Some r0 =>
          match find_free_row 3 g r0 c with
          | None => None
          | Some r => Some (grid_set g r c num, alter (Z.add 1) r rows)
          end
      end
  end.

(** [ticket.forEach(num => { ... })] *)
Fixpoint place_all (st : grid * list Z) (t : list Z) : option (grid * list Z) :=
  match t with
  | [] => Some st
  | num :: t' =>
      match place_number st num with
      | Some st' => place_all st' t'
      | None => None
      end
  end.

(** ** Phase 2: filler numbers *)

(** [row.map((num, index) => num === null ? index : null)
        .filter(index => index !== null)] *)
Definition empty_columns (rw : row) : list Z :=
  omap (fun x => x)
    (imap (fun i (o : option Z) => match o with None => Some (Z.of_nat i) | Some _ => None end) rw).

(** [row.includes(newNum)] *)
Definition row_includes (x : Z) (rw : row) : bool := bool_decide (Some x ∈ rw).

(** [while (numbersInRow < 5)] *)
Definition fill_cond (st : row * Z) : bool := st.2 <? 5.

(** The body of the filler loop:
    [const emptyColumns = ...;
     const columnToFill = emptyColumns[Math.floor(Math.random() * emptyColumns.length)];
     const newNum = generateRandomNumber(columnToFill * 10 + 1, columnToFill * 10 + 10);
     if (!ticket.includes(newNum) && !row.includes(newNum)) {
       row[columnToFill] = newNum; numbersInRow++; }]
    When [columnToFill] is [undefined] (no empty column),
    [generateRandomNumber(NaN, NaN)] still draws and returns [NaN], which
    is in neither array, and [row[undefined] = NaN] sets a property that
    is not an element: only the counter moves.  [fill_row_has_empty]
    shows that this case does not happen. *)
Definition fill_body (ticket : list Z) (st : row * Z) : Rand (row * Z) :=
  let '(rw, n) := st in
  let emptyColumns := empty_columns rw in
  let* idx := random_index (Z.of_nat (length emptyColumns)) in
  match js_index emptyColumns idx with
  | Some col =>
      let* newNum := generateRandomNumber (col * 10 + 1) (col * 10 + 10) in
      if negb (includes newNum ticket) && negb (row_includes newNum rw)
      then rret (<[Z.to_nat col := Some newNum]> rw, n + 1)
      else rret (rw, n)
  | None => let* _ := math_random in rret (rw, n + 1)
  end.

(** [let numbersInRow = row.filter(num => num !== null).length;
     while (...) {...}] on one row. *)
Definition fill_row (ticket : list Z) (rw : row) : Rand row :=
  let* st := rwhile fill_cond (fill_body ticket) (rw, Z.of_nat (count_some rw)) in
  rret st.1.

(** [function organizeTicket(ticket)]: phase 1, then
    [organizedTicket.forEach(row => ...)] on the three rows in order. *)
Definition organizeTicket (ticket : list Z) : Rand grid :=
  match place_all (empty_grid, rows_init) ticket with
  | None => fun _ => None
  | Some (g, _) => rmap (fill_row ticket) g
  end.

(** ** The placement step, abstracted to counters and one column *)

(** Occupancy of column [c]: [true] when [organizedTicket[r][c] !== null]. *)
Definition col_occ (g : grid) (c : Z) : list bool :=
  (fun rw : row => match js_index rw c with Some None => false | _ => true end) <$> g.

Fixpoint afind (fuel : nat) (occ : list bool) (r : nat) : option nat :=
  match fuel with
  | O => None
  | S f =>
      match occ !! r with
      | None => None
      | Some false => Some r
      | Some true => afind f occ ((r + 1) mod 3)%nat
      end
  end.

(** The row the step chooses, from the counters and the occupancy. *)
Definition choose_row (rows : list Z) (occ : list bool) : option nat :=
  match js_min rows with
  | None => None
  | Some m => match index_of m rows with None => None | Some r0 => afind 3 occ r0 end
  end.

Definition astep (st : list Z * list bool) : option (list Z * list bool) :=
  (fun r => (alter (Z.add 1) r st.1, <[r := true]> st.2)) <$> choose_row st.1 st.2.

(** [k] steps on the same column. *)
Fixpoint arun (k : nat) (st : list Z * list bool) : option (list Z * list bool) :=
  match k with O => Some st | S k' => arun k' st ≫= astep end.

Definition no_occ : list bool := [false; false; false].

(** Counters that differ by at most one. *)
Definition balancedb (rows : list Z) : bool :=
  match rows with
  | [a; b; c] => Z.max a (Z.max b c) - Z.min a (Z.min b c) <=? 1
  | _ => false
  end.

Definition unit_vectors : list (list Z) :=
  [[0;0;0]; [0;0;1]; [0;1;0]; [0;1;1]; [1;0;0]; [1;0;1]; [1;1;0]; [1;1;1]].

(** From balanced counters, a run of up to 3 numbers of one empty column
    never fails and leaves the counters balanced: checked on the eight
    normal forms. *)
Definition runs_balancedb : bool :=
  forallb (fun d => forallb (fun k =>
    match arun k (d, no_occ) with Some (r, _) => balancedb r | None => false end)
    [0; 1; 2; 3]%nat) unit_vectors.

Lemma runs_balancedb_true : runs_balancedb = true.
Proof. vm_compute. reflexivity. Qed.

(** *** Link with the concrete step *)

Lemma find_free_row_occ fuel g r c : find_free_row fuel g r c = afind fuel (col_occ g c) r.
Proof.
  revert r. induction fuel as [|f IH]; intros r; [done|]. cbn [find_free_row afind].
  unfold col_occ at 1. rewrite list_lookup_fmap.
  destruct (g !! r) as [rw|] eqn:E; simpl; rewrite ?E; simpl; [|done].
  destruct (js_index rw c) as [[x|]|]; try apply IH; reflexivity.
Qed.

Lemma place_number_choose g rows num :
  place_number (g, rows) num =
    (fun r => (grid_set g r (column num) num, alter (Z.add 1) r rows)) <$>
      choose_row rows (col_occ g (column num)).
Proof.
  unfold place_number, choose_row. destruct (js_min rows) as [m|]; [|done].
  destruct (index_of m rows) as [r0|]; [|done].
  rewrite find_free_row_occ. by destruct (afind _ _ _).
Qed.

(** *** Shifting all counters by [m] does not change the choice *)

Lemma foldl_min_shift m x l :
  foldl Z.min (m + x) (Z.add m <$> l) = m + foldl Z.min x l.
Proof.
  revert x. induction l as [|y l IH]; intros x; simpl; [done|].
  rewrite Z.add_min_distr_l. apply IH.
Qed.

Lemma index_of_shift m x l : index_of (m + x) (Z.add m <$> l) = index_of x l.
Proof.
  induction l as [|y l IH]; [done|]. rewrite fmap_cons. cbn [index_of].
  rewrite IH. destruct (Z.eqb_spec (m + x) (m + y)), (Z.eqb_spec x y); done || lia.
Qed.

Lemma js_min_shift m l : js_min (Z.add m <$> l) = Z.add m <$> js_min l.
Proof. destruct l as [|x l]; [done|]. simpl. f_equal. apply foldl_min_shift. Qed.

Lemma choose_row_shift m rows occ :
  choose_row (Z.add m <$> rows) occ = choose_row rows occ.
Proof.
  unfold choose_row. rewrite js_min_shift.
  destruct (js_min rows) as [x|]; simpl; [|done]. by rewrite index_of_shift.
Qed.

Lemma alter_shift m r (rows : list Z) :
  alter (Z.add 1) r (Z.add m <$> rows) = Z.add m <$> alter (Z.add 1) r rows.
Proof.
  apply list_eq. intros i. rewrite list_lookup_fmap, !list_lookup_alter.
  case_decide; rewrite !list_lookup_fmap; [|done].
  destruct (rows !! r); simpl; [f_equal; lia|done].
Qed.

Lemma arun_shift m k (rows : list Z) (occ : list bool) :
  arun k (Z.add m <$> rows, occ) =
    (fun st : list Z * list bool => (Z.add m <$> st.1, st.2)) <$> arun k (rows, occ).
Proof.
  induction k as [|k IH]; [done|]. simpl. rewrite IH.
  destruct (arun k (rows, occ)) as [[r o]|]; simpl; [|done].
  unfold astep. simpl. rewrite choose_row_shift.
  destruct (choose_row r o); simpl; [|done]. by rewrite alter_shift.
Qed.

(** *** Runs from balanced counters *)

Lemma balancedb_shift m (rows : list Z) : balancedb (Z.add m <$> rows) = balancedb rows.
Proof. destruct rows as [|a [|b [|c [|]]]]; simpl; try done. f_equal. lia. Qed.

Lemma balancedb_normal rows :
  balancedb rows = true -> exists m d, d ∈ unit_vectors /\ rows = Z.add m <$> d.
Proof.
  destruct rows as [|a [|b [|c [|]]]]; simpl; try done. intros Hb%Z.leb_le.
  set (m := Z.min a (Z.min b c)).
  exists m, [a - m; b - m; c - m]. split; [|simpl; repeat f_equal; lia].
  assert (a - m = 0 \/ a - m = 1) as [-> | ->] by lia;
  assert (b - m = 0 \/ b - m = 1) as [-> | ->] by lia;
  assert (c - m = 0 \/ c - m = 1) as [-> | ->] by lia;
  apply (bool_decide_unpack _); vm_compute; reflexivity.
Qed.

(** A run of up to 3 steps from balanced counters and an empty column
    succeeds and ends balanced. *)
Lemma arun_balanced R0 k :
  balancedb R0 = true -> (k <= 3)%nat ->
  exists st, arun k (R0, no_occ) = Some st /\ balancedb st.1 = true.
Proof.
  intros HR Hk. destruct (balancedb_normal R0 HR) as (m & d & Hd & ->).
  pose proof runs_balancedb_true as Hall. unfold runs_balancedb in Hall.
  rewrite forallb_forall in Hall. apply list_elem_of_In in Hd.
  specialize (Hall d Hd). rewrite forallb_forall in Hall.
  specialize (Hall k ltac:(simpl; lia)).
  rewrite arun_shift. destruct (arun k (d, no_occ)) as [[r o]|]; [|done].
  eexists. split; [done|]. simpl. by rewrite balancedb_shift.
Qed.

(** *** Writing a number in a null cell *)

Definition row_counts (g : grid) : list Z := (fun rw : row => Z.of_nat (count_some rw)) <$> g.

Definition sumZ (l : list Z) : Z := foldr Z.add 0 l.

(** The grid has 3 rows of 10 cells. *)
Definition gwf (g : grid) : Prop := length g = 3%nat /\ Forall (fun rw : row => length rw = 10%nat) g.

Lemma grid_set_lookup g r c x i :
  grid_set g r c x !! i = if decide (r = i) then (fun rw => <[Z.to_nat c := Some x]> rw) <$> g !! r else g !! i.
Proof. apply list_lookup_alter. Qed.

Lemma sumZ_alter l r : (r < length l)%nat -> sumZ (alter (Z.add 1) r l) = 1 + sumZ l.
Proof.
  revert r. induction l as [|y l IH]; intros [|r] Hr; simpl in Hr; try lia.
  - unfold sumZ. simpl. lia.
  - change (alter (Z.add 1) (S r) (y :: l)) with (y :: alter (Z.add 1) r l).
    specialize (IH r ltac:(lia)). unfold sumZ in *. cbn [foldr]. lia.
Qed.

Section NullCell.
Context (g : grid) (r : nat) (c : Z) (x : Z) (rw : row).
Hypothesis Hrow : g !! r = Some rw.
Hypothesis Hc : 0 <= c.
Hypothesis Hnull : rw !! Z.to_nat c = Some None.

Lemma grid_set_counts : row_counts (grid_set g r c x) = alter (Z.add 1) r (row_counts g).
  Proof.
    apply list_eq. intros i. unfold row_counts.
    rewrite list_lookup_fmap, grid_set_lookup, list_lookup_alter.
    case_decide; subst; rewrite ?list_lookup_fmap; [|done].
    rewrite Hrow. simpl. rewrite count_some_insert_None by done. f_equal. lia.
  Qed.

Lemma grid_set_occ_same : col_occ (grid_set g r c x) c = <[r := true]> (col_occ g c).
  Proof.
    apply list_eq. intros i. unfold col_occ.
    rewrite list_lookup_fmap, grid_set_lookup.
    destruct (decide (r = i)) as [<-|Hne].
    - rewrite list_lookup_insert_eq by (rewrite length_fmap; by apply lookup_lt_Some with rw).
      rewrite Hrow. simpl. unfold js_index. destruct (Z.leb_spec 0 c); [|lia].
      rewrite list_lookup_insert_eq; [done|]. by apply lookup_lt_Some with None.
    - rewrite list_lookup_insert_ne by done. by rewrite list_lookup_fmap.
  Qed.

Lemma grid_set_occ_other c' : c' <> c -> col_occ (grid_set g r c x) c' = col_occ g c'.
  Proof.
    intros Hne. apply list_eq. intros i. unfold col_occ.
    rewrite !list_lookup_fmap, grid_set_lookup.
    case_decide; subst; [|done]. rewrite Hrow. simpl. unfold js_index.
    destruct (Z.leb_spec 0 c'); [|done]. rewrite list_lookup_insert_ne by lia. done.
  Qed.

Lemma grid_set_gwf : gwf g -> gwf (grid_set g r c x).
  Proof.
    intros [Hl Hrows]. split; [unfold grid_set; by rewrite length_alter|].
    apply Forall_lookup. intros i rw' Hi. rewrite grid_set_lookup in Hi.
    rewrite Forall_lookup in Hrows. destruct (decide (r = i)) as [<-|Hne].
    - rewrite Hrow in Hi. simpl in Hi. injection Hi as <-. rewrite length_insert. by apply (Hrows r).
    - by apply (Hrows i).
  Qed.
End NullCell.

Lemma afind_free fuel occ r0 r : afind fuel occ r0 = Some r -> occ !! r = Some false.
Proof.
  revert r0. induction fuel as [|f IH]; intros r0; simpl; [done|].
  destruct (occ !! r0) as [[|]|] eqn:E; [apply IH| |done].
  intros [= <-]. done.
Qed.

Lemma choose_row_free rows occ r : choose_row rows occ = Some r -> occ !! r = Some false.
Proof.
  unfold choose_row. destruct (js_min rows); [|done].
  destruct (index_of _ _); [apply afind_free|done].
Qed.

Lemma col_occ_free g c r :
  col_occ g c !! r = Some false -> exists rw, g !! r = Some rw /\ js_index rw c = Some None.
Proof.
  unfold col_occ. rewrite list_lookup_fmap. destruct (g !! r) as [rw|]; simpl; [|done].
  destruct (js_index rw c) as [[?|]|] eqn:E; intros [=]. eauto.
Qed.

(** One number of column [c], placed during a run that has taken [k]
    steps from balanced counters [R0]: the step succeeds while the run
    has at most 3 numbers, and the counters and the occupancy of the
    grid follow the abstract run. *)
Lemma place_number_run g c k R0 x :
  gwf g -> balancedb R0 = true ->
  arun k (R0, no_occ) = Some (row_counts g, col_occ g c) ->
  (S k <= 3)%nat -> column x = c -> 0 <= c ->
  exists g', place_number (g, row_counts g) x = Some (g', row_counts g') /\ gwf g' /\
    arun (S k) (R0, no_occ) = Some (row_counts g', col_occ g' c) /\
    (forall c', c' <> c -> col_occ g' c' = col_occ g c') /\
    sumZ (row_counts g') = 1 + sumZ (row_counts g).
Proof.
  intros Hg HR Hrun Hk Hx Hc.
  destruct (arun_balanced R0 (S k) HR Hk) as (st & Hst & _).
  simpl in Hst. rewrite Hrun in Hst. simpl in Hst. unfold astep in Hst. simpl in Hst.
  destruct (choose_row (row_counts g) (col_occ g c)) as [r|] eqn:Hr; [|done].
  destruct (col_occ_free g c r (choose_row_free _ _ _ Hr)) as (rw & Hrow & Hnull).
  unfold js_index in Hnull. destruct (Z.leb_spec 0 c); [|lia].
  exists (grid_set g r c x). rewrite place_number_choose, Hx, Hr. simpl.
  rewrite (grid_set_counts g r c x rw), (grid_set_occ_same g r c x rw) by done.
  split; [done|]. split; [by apply grid_set_gwf with rw|].
  split. { rewrite Hrun. simpl. unfold astep. simpl. by rewrite Hr. }
  split; [intros c' Hc'; by apply grid_set_occ_other with rw|].
  apply sumZ_alter. unfold row_counts. rewrite length_fmap. by apply lookup_lt_Some with rw.
Qed.

(** *** The whole placement *)

Lemma column_mono x y : x <= y -> column x <= column y.
Proof. unfold column. intros. apply Z.div_le_mono; lia. Qed.

Lemma run_end_balanced g c k R0 :
  balancedb R0 = true -> arun k (R0, no_occ) = Some (row_counts g, col_occ g c) ->
  (k <= 3)%nat -> balancedb (row_counts g) = true.
Proof.
  intros HR Hrun Hk. destruct (arun_balanced R0 k HR Hk) as (st & Hst & Hb).
  rewrite Hrun in Hst. by injection Hst as <-.
Qed.

(** The placement of the rest [q] of a sorted ticket, from a state in the
    middle of the run of column [c]. *)
Lemma place_all_runs q g c k R0 :
  gwf g -> balancedb R0 = true ->
  arun k (R0, no_occ) = Some (row_counts g, col_occ g c) -> (k <= 3)%nat ->
  (k + col_count q c <= 3)%nat -> (forall c', (col_count q c' <= 3)%nat) ->
  Forall (fun x => 1 <= x <= 99 /\ c <= column x) q -> StronglySorted Z.lt q ->
  (forall c', c < c' <= 9 -> col_occ g c' = no_occ) -> 0 <= c ->
  exists g', place_all (g, row_counts g) q = Some (g', row_counts g') /\ gwf g' /\
    balancedb (row_counts g') = true /\
    sumZ (row_counts g') = sumZ (row_counts g) + Z.of_nat (length q).
Proof.
  revert g c k R0. induction q as [|x q IH];
    intros g c k R0 Hg HR Hrun Hk Hkq Hcq Hq Hs Hfree Hc.
  - exists g. split; [done|]. split; [done|]. split; [by eapply run_end_balanced|simpl; lia].
  - apply Forall_cons in Hq as [[Hx Hcx] Hq]. apply StronglySorted_inv in Hs as [Hs Hlt].
    assert (forall c', (col_count q c' <= 3)%nat) as Hcq'.
    { intros c'. specialize (Hcq c'). rewrite col_count_cons in Hcq. lia. }
    assert (Forall (fun y => 1 <= y <= 99 /\ column x <= column y) q) as Hq'.
    { rewrite Forall_forall in Hq, Hlt |- *. intros y Hy.
      split; [by apply Hq|]. apply column_mono. specialize (Hlt y Hy). lia. }
    pose proof (column_range x Hx) as Hx9.
    specialize (Hcq (column x)) as Hcx3. rewrite col_count_cons, decide_True in Hcx3 by done.
    destruct (decide (column x = c)) as [Hxc|Hxc].
    + rewrite col_count_cons, decide_True in Hkq by done.
      destruct (place_number_run g c k R0 x Hg HR Hrun ltac:(lia) Hxc Hc)
        as (g1 & Hp & Hg1 & Hrun1 & Hoth & Hsum).
      rewrite Hxc in Hq'.
      destruct (IH g1 c (S k) R0 Hg1 HR Hrun1 ltac:(lia) ltac:(lia) Hcq' Hq' Hs)
        as (g' & Hall & Hg' & Hb' & Hsum');
        [by intros c' Hc'; rewrite Hoth, Hfree by lia|done|].
      exists g'. cbn [place_all]. rewrite Hp. split; [done|]. split; [done|]. split; [done|].
      rewrite Hsum', Hsum. cbn [length]. lia.
    + assert (Hb := run_end_balanced g c k R0 HR Hrun Hk).
      assert (arun 0 (row_counts g, no_occ) = Some (row_counts g, col_occ g (column x))) as Hrun0
        by (rewrite Hfree by lia; done).
      destruct (place_number_run g (column x) 0 (row_counts g) x Hg Hb Hrun0 ltac:(lia) eq_refl
                  ltac:(lia)) as (g1 & Hp & Hg1 & Hrun1 & Hoth & Hsum).
      destruct (IH g1 (column x) 1%nat (row_counts g) Hg1 Hb Hrun1 ltac:(lia) ltac:(lia) Hcq' Hq' Hs)
        as (g' & Hall & Hg' & Hb' & Hsum');
        [by intros c' Hc'; rewrite Hoth, Hfree by lia|lia|].
      exists g'. cbn [place_all]. rewrite Hp. split; [done|]. split; [done|]. split; [done|].
      rewrite Hsum', Hsum. cbn [length]. lia.
Qed.

Lemma empty_grid_occ c : 0 <= c <= 9 -> col_occ empty_grid c = no_occ.
Proof.
  intros Hc. destruct_digit c; reflexivity.
Qed.

Lemma balanced_sum_five rows :
  length rows = 3%nat -> balancedb rows = true -> sumZ rows = 15 -> rows = [5; 5; 5].
Proof.
  destruct rows as [|a [|b [|c [|]]]]; simpl; try done.
  intros _ Hb%Z.leb_le Hs. unfold sumZ in Hs. simpl in Hs. repeat f_equal; lia.
Qed.

Lemma place_all_balanced t :
  valid_ticket t ->
  exists g, place_all (empty_grid, rows_init) t = Some (g, [5; 5; 5]) /\ gwf g /\
    Forall (fun rw : row => count_some rw = 5%nat) g.
Proof.
  intros (Hlen & Hnd & Hr & Hs & Hc).
  assert (gwf empty_grid) as Hg0 by (split; [done|repeat constructor]).
  assert (forall c', (col_count t c' <= 3)%nat) as Hc' by (intros; by apply valid_col_count).
  assert (Forall (fun x => 1 <= x <= 99 /\ 0 <= column x) t) as Hr0.
  { eapply Forall_impl; [exact Hr|]. intros x Hx. cbv beta in *. pose proof (column_range x Hx). lia. }
  assert (StronglySorted Z.lt t) as Hss by (apply Sorted_StronglySorted; [apply _|done]).
  destruct (place_all_runs t empty_grid 0 0 rows_init Hg0 eq_refl eq_refl ltac:(lia)
              ltac:(specialize (Hc' 0); lia) Hc' Hr0 Hss ltac:(intros; apply empty_grid_occ; lia)
              ltac:(lia)) as (g & Hall & Hg & Hb & Hsum).
  assert (row_counts g = [5; 5; 5]) as Hfive.
  { apply balanced_sum_five; [|done|].
    - unfold row_counts. rewrite length_fmap. by destruct Hg.
    - rewrite Hsum, Hlen. reflexivity. }
  exists g. change (empty_grid, rows_init) with (empty_grid, row_counts empty_grid).
  rewrite Hall, Hfive. split; [done|]. split; [done|].
  assert (Forall (fun z => z = 5) (row_counts g)) as HF by (rewrite Hfive; repeat constructor).
  unfold row_counts in HF. apply Forall_fmap in HF.
  eapply Forall_impl; [exact HF|]. simpl. intros rw Hrw. lia.
Qed.

(** C1: placing the 15 numbers of a valid ticket never runs the
    [while] loop forever and leaves exactly 5 numbers in each of the 3
    rows: the counters [rows] end as [[5, 5, 5]]. *)
Theorem place_all_five t :
  valid_ticket t ->
  exists g, place_all (empty_grid, rows_init) t = Some (g, [5; 5; 5]) /\ gwf g /\
    Forall (fun rw : row => count_some rw = 5%nat) g.
Proof. apply place_all_balanced. Qed.

(** ** Phase 2 on a valid ticket *)

Lemma fill_row_full t rw rs : count_some rw = 5%nat -> fill_row t rw rs = Some (rw, rs).
Proof. intros Hc. unfold fill_row, rbind, rwhile. rewrite Hc. reflexivity. Qed.

Lemma rmap_fill_full t g rs :
  Forall (fun rw : row => count_some rw = 5%nat) g -> rmap (fill_row t) g rs = Some (g, rs).
Proof.
  intros Hg. revert rs. induction Hg as [|rw g Hrw _ IH]; intros rs; [done|].
  simpl. unfold rbind at 1. rewrite fill_row_full by done.
  unfold rbind. by rewrite IH.
Qed.

(** For a valid ticket [organizeTicket] returns the placement, a
    well-formed 3x10 grid with 5 numbers per row, and draws nothing. *)
Lemma organizeTicket_valid t rs :
  valid_ticket t ->
  exists g, organizeTicket t rs = Some (g, rs) /\
    place_all (empty_grid, rows_init) t = Some (g, [5; 5; 5]) /\ gwf g /\
    Forall (fun rw : row => count_some rw = 5%nat) g.
Proof.
  intros Hv. destruct (place_all_balanced t Hv) as (g & Hall & Hg & H5).
  exists g. unfold organizeTicket. rewrite Hall. split; [|done].
  by apply rmap_fill_full.
Qed.

(** C3: for a valid ticket, [organizeTicket] draws no random sample: the
    placement already puts 5 numbers in every row, so the filler loop
    [while (numbersInRow < 5)] never runs, and the result is the grid of
    the placement, with exactly 5 numbers per row. *)
Theorem organizeTicket_no_filler t rs :
  valid_ticket t ->
  exists g, organizeTicket t rs = Some (g, rs) /\
    place_all (empty_grid, rows_init) t = Some (g, [5; 5; 5]) /\
    Forall (fun rw : row => count_some rw = 5%nat) g.
Proof.
  intros Hv. destruct (organizeTicket_valid t rs Hv) as (g & Ho & Hall & _ & H5).
  by exists g.
Qed.

(** ** The numbers of the grid *)

(** The numbers of a row, and of a grid, in row order. *)
Definition row_numbers (rw : row) : list Z := omap (fun o => o) rw.
Definition grid_numbers (g : grid) : list Z := concat (map row_numbers g).

Lemma row_numbers_insert rw i x :
  rw !! i = Some None -> row_numbers (<[i := Some x]> rw) ≡ₚ x :: row_numbers rw.
Proof.
  unfold row_numbers. revert i. induction rw as [|o rw IH]; intros [|i]; simpl; try done.
  - intros [= ->]. done.
  - intros H. destruct o; simpl; rewrite IH by done; [apply Permutation_swap|done].
Qed.

Lemma grid_numbers_set g r c x rw :
  g !! r = Some rw -> rw !! Z.to_nat c = Some None ->
  grid_numbers (grid_set g r c x) ≡ₚ x :: grid_numbers g.
Proof.
  unfold grid_numbers, grid_set. set (f := fun rw : row => <[Z.to_nat c := Some x]> rw).
  revert r. induction g as [|rw' g IH]; intros [|r]; try done.
  - intros [= ->] Hn. simpl. unfold f. by rewrite row_numbers_insert.
  - change (alter f (S r) (rw' :: g)) with (rw' :: alter f r g). cbn [map concat].
    intros Hr Hn. rewrite IH by done. by rewrite Permutation_middle.
Qed.

(** Every cell holds a number of its column. *)
Definition cells_in_columns (g : grid) : Prop :=
  forall r i rw x, g !! r = Some rw -> rw !! i = Some (Some x) -> column x = Z.of_nat i.

Lemma place_number_numbers g rows x g' rows' :
  place_number (g, rows) x = Some (g', rows') -> cells_in_columns g ->
  grid_numbers g' ≡ₚ x :: grid_numbers g /\ cells_in_columns g'.
Proof.
  rewrite place_number_choose. destruct (choose_row _ _) as [r|] eqn:Hr; simpl; [|done].
  intros [= <- <-] Hcol.
  destruct (col_occ_free g _ r (choose_row_free _ _ _ Hr)) as (rw & Hrow & Hnull).
  unfold js_index in Hnull. destruct (Z.leb_spec 0 (column x)); [|done].
  split; [by apply grid_numbers_set with rw|].
  intros r' i rw' y Hr' Hi. unfold grid_set in Hr'. rewrite list_lookup_alter in Hr'.
  case_decide; [subst r'; rewrite Hrow in Hr'; injection Hr' as <-|by eapply Hcol].
  destruct (decide (i = Z.to_nat (column x))) as [->|Hne].
  - rewrite list_lookup_insert_eq in Hi; [injection Hi as ->; lia|].
    by apply lookup_lt_Some with None.
  - rewrite list_lookup_insert_ne in Hi by done. by eapply Hcol.
Qed.

Lemma place_all_numbers st t st' :
  place_all st t = Some st' -> cells_in_columns st.1 ->
  grid_numbers st'.1 ≡ₚ rev t ++ grid_numbers st.1 /\ cells_in_columns st'.1.
Proof.
  revert st. induction t as [|x t IH]; intros [g rows] H Hcol; cbn [place_all] in H.
  - by injection H as <-.
  - destruct (place_number (g, rows) x) as [[g1 rows1]|] eqn:Hp; [|done].
    destruct (place_number_numbers _ _ _ _ _ Hp Hcol) as [Hn1 Hc1].
    destruct (IH _ H Hc1) as [Hn Hc]. split; [|done].
    rewrite Hn. simpl. rewrite Hn1, <-app_assoc. simpl. done.
Qed.

Lemma place_all_cells t g rows :
  place_all (empty_grid, rows_init) t = Some (g, rows) ->
  grid_numbers g ≡ₚ t /\ cells_in_columns g.
Proof.
  intros H. destruct (place_all_numbers _ _ _ H) as [Hn Hc].
  - intros r i rw x Hr Hi. unfold empty_grid in Hr.
    apply lookup_replicate in Hr as [-> _]. apply lookup_replicate in Hi as [[=] _].
  - split; [|done]. simpl in Hn. rewrite Hn. unfold grid_numbers, empty_grid. simpl.
    rewrite app_nil_r. symmetry. apply Permutation_rev.
Qed.

(** C6: the placement keeps the ticket: the numbers of the grid are exactly
    the ticket's numbers, and every number sits in the column of its tens
    band. *)
Theorem place_all_keeps_numbers t g rows :
  place_all (empty_grid, rows_init) t = Some (g, rows) ->
  grid_numbers g ≡ₚ t /\ cells_in_columns g.
Proof. apply place_all_cells. Qed.

(** ** The fuel of [find_free_row] is exact *)

Lemma afind_fuel n a b c r :
  (r < 3)%nat -> afind (3 + n) [a; b; c] r = afind 3 [a; b; c] r.
Proof.
  revert r. induction n as [|n IH]; intros r Hr; [done|].
  replace (3 + S n)%nat with (S (3 + n)) by lia. cbn [afind].
  rewrite IH by (apply Nat.mod_upper_bound; lia).
  destruct r as [|[|[|r]]]; try lia; destruct a, b, c; reflexivity.
Qed.

(** The fuel of [find_free_row] is enough: the loop cycles through the
    3 rows, so more than 3 iterations give the result of 3, and
    [find_free_row 3] returning [None] stands for a loop that never
    ends. *)
Lemma find_free_row_fuel n g r c :
  length g = 3%nat -> (r < 3)%nat -> find_free_row (3 + n) g r c = find_free_row 3 g r c.
Proof.
  intros Hl Hr. rewrite !find_free_row_occ.
  assert (length (col_occ g c) = 3%nat) as Ho by (unfold col_occ; by rewrite length_fmap).
  destruct (col_occ g c) as [|a [|b [|d [|]]]]; try discriminate.
  by apply afind_fuel.
Qed.

(** ** Phase 2 on any row *)

(** A row with 4 numbers and its last column empty, used by the
    examples. *)
Definition ex_row : row := [Some 3; Some 12; Some 22; Some 31; None; None; None; None; None; None].

Lemma elem_of_empty_columns rw col :
  col ∈ empty_columns rw <-> 0 <= col /\ rw !! Z.to_nat col = Some None.
Proof.
  unfold empty_columns. rewrite list_elem_of_omap. split.
  - intros (y & Hy & Hf). simpl in Hf. subst y.
    apply elem_of_lookup_imap in Hy as (i & o & Heq & Hi).
    destruct o; [done|]. injection Heq as ->. rewrite Nat2Z.id. split; [lia|done].
  - intros [Hc Hi]. exists (Some col). split; [|done]. apply elem_of_lookup_imap.
    exists (Z.to_nat col), None. rewrite Z2Nat.id by lia. done.
Qed.

Lemma count_some_lt_has_None (rw : row) :
  (count_some rw < length rw)%nat -> exists i, rw !! i = Some None.
Proof.
  induction rw as [|o rw IH]; simpl; [lia|]. rewrite count_some_cons.
  destruct o as [x|]; intros H.
  - destruct IH as [i Hi]; [lia|]. by exists (S i).
  - by exists 0%nat.
Qed.

(** While the row has fewer numbers than cells, every index drawn from
    [emptyColumns] is a column: [columnToFill] is never [undefined]. *)
Lemma fill_row_has_empty (rw : row) m :
  (count_some rw < length rw)%nat -> 0 <= m < two53 ->
  exists col, js_index (empty_columns rw) (floor_times m (Z.of_nat (length (empty_columns rw)))) = Some col.
Proof.
  intros Hlt Hm. destruct (count_some_lt_has_None rw Hlt) as [i Hi].
  assert (Z.of_nat i ∈ empty_columns rw) as Hin
    by (apply elem_of_empty_columns; rewrite Nat2Z.id; split; [lia|done]).
  assert (0 < length (empty_columns rw))%nat as Hpos
    by (destruct (empty_columns rw); [by apply not_elem_of_nil in Hin|simpl; lia]).
  pose proof (floor_times_range m (Z.of_nat (length (empty_columns rw))) Hm ltac:(lia)) as Hf.
  unfold js_index. destruct (Z.leb_spec 0 (floor_times m (Z.of_nat (length (empty_columns rw))))); [|lia].
  apply lookup_lt_is_Some_2. lia.
Qed.

Lemma js_index_elem {A} (l : list A) i x : js_index l i = Some x -> x ∈ l.
Proof.
  unfold js_index. destruct (Z.leb_spec 0 i); [|done]. apply list_elem_of_lookup_2.
Qed.

(** One iteration of the filler loop on a row with an empty cell: it
    draws a column [col] whose cell is [null] and a candidate [newNum] of
    [[10 col + 1, 10 col + 10]], and writes it when it is new to the
    ticket and to the row. *)
Lemma fill_body_cases t rw n rs st' rs' :
  fill_body t (rw, n) rs = Some (st', rs') -> (count_some rw < length rw)%nat ->
  exists col newNum, 0 <= col /\ rw !! Z.to_nat col = Some None /\
    col * 10 + 1 <= newNum <= col * 10 + 10 /\
    (((newNum ∉ t) /\ (Some newNum ∉ rw) /\ st' = (<[Z.to_nat col := Some newNum]> rw, n + 1)) \/
     st' = (rw, n)).
Proof.
  unfold fill_body. intros H Hlt.
  apply rbind_inv in H as (idx & rs1 & Hidx & H).
  unfold random_index in Hidx. apply rbind_inv in Hidx as (m & rs0 & Hm & [= <- <-]).
  apply math_random_inv in Hm as (s & -> & ->).
  destruct (fill_row_has_empty rw (s mod two53) Hlt (mantissa_range s)) as [col Hcol].
  rewrite Hcol in H. apply js_index_elem, elem_of_empty_columns in Hcol as [Hc0 Hnull].
  apply rbind_inv in H as (newNum & rs2 & Hg & Hk).
  apply generateRandomNumber_bounds in Hg as [Hb _]; [|lia].
  exists col, newNum. do 3 (split; [done|]).
  destruct (negb (includes newNum t) && negb (row_includes newNum rw)) eqn:E;
    injection Hk as <- _; [left|by right].
  apply andb_true_iff in E as [E1 E2]. apply negb_true_iff in E1, E2.
  apply includes_false in E1. unfold row_includes in E2. apply bool_decide_eq_false in E2.
  done.
Qed.

(** The invariant of the filler loop started on the row [rw0]: the
    counter counts the numbers of the row, the row has no repeated
    number, the numbers of [rw0] stay in place, and every other number
    is a filler: not on the ticket, and in the band [[10 i + 1, 10 i +
    10]] of its column [i]. *)
Definition fill_inv (t : list Z) (rw0 : row) (st : row * Z) : Prop :=
  length (fst st) = length rw0 /\ (snd st) = Z.of_nat (count_some (fst st)) /\ (snd st) <= 5 /\
  NoDup (row_numbers (fst st)) /\
  (forall i x, rw0 !! i = Some (Some x) -> (fst st) !! i = Some (Some x)) /\
  (forall i x, (fst st) !! i = Some (Some x) -> rw0 !! i = Some (Some x) \/
     ((x ∉ t) /\ 10 * Z.of_nat i + 1 <= x <= 10 * Z.of_nat i + 10)).

Lemma row_numbers_elem (rw : row) x : x ∈ row_numbers rw <-> Some x ∈ rw.
Proof. unfold row_numbers. rewrite list_elem_of_omap. naive_solver. Qed.

Lemma fill_body_keeps t rw0 st rs st' rs' :
  length rw0 = 10%nat -> fill_inv t rw0 st -> fill_cond st = true ->
  fill_body t st rs = Some (st', rs') -> fill_inv t rw0 st'.
Proof.
  destruct st as [rw n]. intros Hlen (Hl & Hn & H5 & Hnd & Hkeep & Hnew) Hc H.
  unfold fill_cond in Hc. simpl in *. apply Z.ltb_lt in Hc.
  assert (count_some rw < length rw)%nat as Hlt by lia.
  destruct (fill_body_cases t rw n rs _ _ H Hlt)
    as (col & x & Hc0 & Hnull & Hb & [(Hxt & Hxr & ->)| ->]).
  2: { split; [done|]. split; [done|]. split; [done|]. done. }
  assert (forall i y, rw0 !! i = Some (Some y) -> i <> Z.to_nat col) as Hold.
  { intros i y Hi ->. rewrite (Hkeep _ _ Hi) in Hnull. done. }
  unfold fill_inv. cbn [fst snd]. split; [by rewrite length_insert|].
  rewrite count_some_insert_None by done. split; [lia|]. split; [lia|].
  split; [rewrite row_numbers_insert by done; constructor; [by rewrite row_numbers_elem|done]|].
  split.
  - intros i y Hi. rewrite list_lookup_insert_ne by (intros Heq; by apply (Hold i y Hi)).
    by apply Hkeep.
  - intros i y Hi. destruct (decide (i = Z.to_nat col)) as [->|Hne].
    + rewrite list_lookup_insert_eq in Hi by (by apply lookup_lt_Some with None).
      injection Hi as <-. right. rewrite Z2Nat.id by done. split; [done|lia].
    + rewrite list_lookup_insert_ne in Hi by done. by apply Hnew.
Qed.

(** C15: on any row of 10 cells with at most 5 distinct numbers, the filler
    loop ends with exactly 5 numbers, keeps the numbers that were there,
    and adds only fillers that are not on the ticket, not already in the
    row, and lie in the band [[10 i + 1, 10 i + 10]] of their column
    [i]; for column 9 that band includes 100. *)
Theorem fill_row_spec t rw0 rs rw rs' :
  length rw0 = 10%nat -> (count_some rw0 <= 5)%nat -> NoDup (row_numbers rw0) ->
  fill_row t rw0 rs = Some (rw, rs') ->
  count_some rw = 5%nat /\ NoDup (row_numbers rw) /\
  (forall i x, rw0 !! i = Some (Some x) -> rw !! i = Some (Some x)) /\
  (forall i x, rw !! i = Some (Some x) -> rw0 !! i = Some (Some x) \/
     ((x ∉ t) /\ 10 * Z.of_nat i + 1 <= x <= 10 * Z.of_nat i + 10)).
Proof.
  intros Hlen H5 Hnd H. unfold fill_row in H.
  apply rbind_inv in H as ([rw1 n] & rs1 & Hl & [= <- _]).
  assert (fill_inv t rw0 (rw0, Z.of_nat (count_some rw0))) as Hinit.
  { split; [done|]. split; [done|]. split; [simpl; lia|]. split; [done|].
    split; [done|]. intros; by left. }
  destruct (rwhile_invariant fill_cond (fill_body t) (fill_inv t rw0)
              (fun st rs st' rs' => fill_body_keeps t rw0 st rs st' rs' Hlen)
              (rw0, Z.of_nat (count_some rw0)) rs _ _ Hinit Hl)
    as [(_ & Hn & Hle & Hnd' & Hkeep & Hnew) Hc].
  unfold fill_cond in Hc. simpl in *. apply Z.ltb_ge in Hc.
  split; [lia|]. done.
Qed.

(** C16: the filler band of column 9 is [[91, 100]]: with these draws, the
    filler loop writes 100, a number the draw pool (1..99) never
    contains, in the last column of a row. *)
Theorem fill_row_can_write_100 :
  exists rs rw,
    fill_row ex_ticket ex_row rs = Some (rw, []) /\
    rw !! 9%nat = Some (Some 100).
Proof.
  exists [sample_for 6 5; sample_for 10 9]. eexists. split; [vm_compute; reflexivity|].
  vm_compute. reflexivity.
Qed.

(** ** Witnesses *)

(** ** A column of four

    The number of free cells of a column bounds how many more numbers of
    that column the placement can take: each placed number fills one free
    cell of its own column and no cell of another. *)

Definition free_count (occ : list bool) : nat := length (filter (fun b => b = false) occ).

Lemma free_count_insert occ r :
  occ !! r = Some false -> S (free_count (<[r := true]> occ)) = free_count occ.
Proof.
  unfold free_count. revert r. induction occ as [|b occ IH]; intros [|r] Hr; simpl in *; try done.
  - injection Hr as ->. rewrite filter_cons_False by done. rewrite filter_cons_True by done. done.
  - rewrite !filter_cons. case_decide; simpl; rewrite <-(IH r Hr); done.
Qed.

Lemma place_number_frees g rows x g' rows' :
  gwf g -> place_number (g, rows) x = Some (g', rows') ->
  gwf g' /\ S (free_count (col_occ g' (column x))) = free_count (col_occ g (column x)) /\
  forall c', c' <> column x -> col_occ g' c' = col_occ g c'.
Proof.
  intros Hg H. rewrite place_number_choose in H.
  destruct (choose_row _ _) as [r|] eqn:Hr; simpl in H; [|done]. injection H as <- _.
  apply choose_row_free in Hr as Hfree.
  destruct (col_occ_free _ _ _ Hfree) as (rw & Hrow & Hjs).
  assert (0 <= column x) as Hc by (destruct (Z.le_gt_cases 0 (column x)); [done|];
    rewrite js_index_neg in Hjs; [done|lia]).
  unfold js_index in Hjs. rewrite (proj2 (Z.leb_le _ _) Hc) in Hjs.
  split_and!.
  - by apply grid_set_gwf with rw.
  - rewrite (grid_set_occ_same _ _ _ _ rw Hrow Hc Hjs). by apply free_count_insert.
  - intros c' Hne. by eapply grid_set_occ_other.
Qed.

Lemma place_all_col_bound t g rows g' rows' c :
  gwf g -> place_all (g, rows) t = Some (g', rows') -> (col_count t c <= free_count (col_occ g c))%nat.
Proof.
  revert g rows. induction t as [|x t IH]; intros g rows Hg H; [unfold col_count; simpl; lia|].
  cbn [place_all] in H.
  destruct (place_number (g, rows) x) as [[g1 rows1]|] eqn:Hp; [|done].
  destruct (place_number_frees _ _ _ _ _ Hg Hp) as (Hg1 & Hfree & Hother).
  specialize (IH _ _ Hg1 H). rewrite col_count_cons.
  case_decide as Hx; [subst c; lia|]. rewrite <-(Hother c) by congruence. lia.
Qed.

(** C19: [organizeTicket] never returns on a ticket with four numbers in
    one column, whatever the random samples: the fourth number of the
    column finds its three cells taken, and the search
    [while (organizedTicket[row][column] !== null) row = (row + 1) % 3]
    cycles through the three full rows forever ([find_free_row_fuel]).  The
    column cap of [generateLottoTicket] is what keeps [organizeTicket]
    terminating. *)
Theorem organizeTicket_four_in_column t c rs :
  (4 <= col_count t c)%nat -> place_all (empty_grid, rows_init) t = None /\ organizeTicket t rs = None.
Proof.
  intros H4. assert (place_all (empty_grid, rows_init) t = None) as Hnone.
  { destruct (place_all (empty_grid, rows_init) t) as [[g' rows']|] eqn:Hall; [|done].
    assert (gwf empty_grid) as Hg0 by (split; [done|repeat constructor]).
    pose proof (place_all_col_bound _ _ _ _ _ c Hg0 Hall) as Hb.
    assert (free_count (col_occ empty_grid c) <= 3)%nat as H3.
    { unfold free_count. etransitivity; [apply length_filter|]. unfold col_occ.
      by rewrite length_fmap. }
    lia. }
  split; [done|]. unfold organizeTicket. by rewrite Hnone.
Qed.

Lemma place_all_five_witness :
  valid_ticket ex_ticket /\
  exists g, place_all (empty_grid, rows_init) ex_ticket = Some (g, [5; 5; 5]) /\ gwf g /\
    Forall (fun rw : row => count_some rw = 5%nat) g.
Proof.
  assert (H : valid_ticket ex_ticket) by (apply (bool_decide_unpack _); vm_compute; reflexivity).
  exact (conj H (place_all_five ex_ticket H)).
Defined.

Lemma organizeTicket_no_filler_witness :
  valid_ticket ex_ticket /\
  exists g, organizeTicket ex_ticket [1; 2] = Some (g, [1; 2]) /\
    place_all (empty_grid, rows_init) ex_ticket = Some (g, [5; 5; 5]) /\
    Forall (fun rw : row => count_some rw = 5%nat) g.
Proof.
  assert (H : valid_ticket ex_ticket) by (apply (bool_decide_unpack _); vm_compute; reflexivity).
  exact (conj H (organizeTicket_no_filler ex_ticket [1; 2] H)).
Defined.

(** The grid of [ex_ticket]. *)
Definition ex_grid : grid :=
  Eval vm_compute in
    match place_all (empty_grid, rows_init) ex_ticket with Some (g, _) => g | None => [] end.

Lemma place_all_keeps_numbers_witness :
  place_all (empty_grid, rows_init) ex_ticket = Some (ex_grid, [5; 5; 5]) /\
  grid_numbers ex_grid ≡ₚ ex_ticket /\ cells_in_columns ex_grid.
Proof.
  assert (H : place_all (empty_grid, rows_init) ex_ticket = Some (ex_grid, [5; 5; 5]))
    by (vm_compute; reflexivity).
  exact (conj H (place_all_keeps_numbers _ _ _ H)).
Defined.

(** [ex_row] after the filler loop with the draws of
    [fill_row_can_write_100]. *)
Definition ex_filled : row :=
  Eval vm_compute in
    match fill_row ex_ticket ex_row [sample_for 6 5; sample_for 10 9] with
    | Some (rw, _) => rw | None => [] end.

Lemma fill_row_spec_witness :
  length ex_row = 10%nat /\ (count_some ex_row <= 5)%nat /\ NoDup (row_numbers ex_row) /\
  fill_row ex_ticket ex_row [sample_for 6 5; sample_for 10 9] = Some (ex_filled, []) /\
  count_some ex_filled = 5%nat /\ NoDup (row_numbers ex_filled) /\
  (forall i x, ex_row !! i = Some (Some x) -> ex_filled !! i = Some (Some x)) /\
  (forall i x, ex_filled !! i = Some (Some x) -> ex_row !! i = Some (Some x) \/
     ((x ∉ ex_ticket) /\ 10 * Z.of_nat i + 1 <= x <= 10 * Z.of_nat i + 10)).
Proof.
  assert (H1 : length ex_row = 10%nat) by reflexivity.
  assert (H2 : (count_some ex_row <= 5)%nat) by (vm_compute; lia).
  assert (H3 : NoDup (row_numbers ex_row)) by (apply (bool_decide_unpack _); vm_compute; reflexivity).
  assert (H4 : fill_row ex_ticket ex_row [sample_for 6 5; sample_for 10 9] = Some (ex_filled, []))
    by (vm_compute; reflexivity).
  exact (conj H1 (conj H2 (conj H3 (conj H4 (fill_row_spec _ _ _ _ _ H1 H2 H3 H4))))).
Defined.


(** A ticket with 1, 2, 3 and 4 in column 0. *)
Definition ex_four : list Z := [1; 2; 3; 4; 25].

Lemma organizeTicket_four_in_column_witness :
  (4 <= col_count ex_four 0)%nat /\
  place_all (empty_grid, rows_init) ex_four = None /\ organizeTicket ex_four [] = None.
Proof.
  assert (4 <= col_count ex_four 0)%nat as H by (apply Nat.leb_le; vm_compute; reflexivity).
  split; [exact H|]. apply (organizeTicket_four_in_column ex_four 0 []). exact H.
Defined.
