(* ===== verification/Draw.v ===== *)
(** * The draw pool: [generateNumbersList], [shuffleArray] and the draw
      of [drawItem] (src/script.js, lines 103-138)

    The pool [items] is the array of the numbers not drawn yet.  A draw
    shuffles the whole array in place (Fisher-Yates, one [Math.random()]
    per index from the last down to 1) and pops its last element.  The
    array is the state; [shuffleArray] returns the permuted array, which
    is what the in-place mutation leaves in [items]. *)

From stdpp Require Import base list sorting.
From Stdlib Require Import ZArith Lia.
From S2P Require Import Prelude Random.

Open Scope Z_scope.
Open Scope loto_scope.

(** [function generateNumbersList() {
       for (let i = 1; i <= 99; i++) numbers.push(i); return numbers; }] *)
Fixpoint numbers_from (i : Z) (fuel : nat) : list Z :=
  match fuel with
  | O => []
  | S f => if i <=? 99 then i :: numbers_from (i + 1) f else []
  end.

Definition generateNumbersList : list Z := numbers_from 1 99.

(** [[array[i], array[j]] = [array[j], array[i]]]: the right-hand side
    is read first, then [array[i]] and [array[j]] are written in this
    order. *)
Definition swap (a : list Z) (i j : nat) : list Z :=
  match a !! i, a !! j with
  | Some x, Some y => <[j := x]> (<[i := y]> a)
  | _, _ => a
  end.

(** [for (let i = array.length - 1; i > 0; i--) {
       const j = Math.floor(Math.random() * (i + 1)); swap(i, j); }]
    from index [i] down. *)
Fixpoint shuffle_loop (i : nat) (a : list Z) : Rand (list Z) :=
  match i with
  | O => rret a
  | S i' =>
      let* j := random_index (Z.of_nat i + 1) in
      shuffle_loop i' (swap a i (Z.to_nat j))
  end.

Definition shuffleArray (a : list Z) : Rand (list Z) := shuffle_loop (length a - 1) a.

(** [items.pop()]: the last element, [undefined] ([None]) on an empty
    array. *)
Definition pop (a : list Z) : option (Z * list Z) :=
  match last a with
  | Some x => Some (x, removelast a)
  | None => None
  end.

(** The pool part of [drawItem] when [items.length > 0]:
    [shuffleArray(items); const drawnItem = items.pop();] *)
Definition draw_from_pool (items : list Z) : Rand (option (Z * list Z)) :=
  let* shuffled := shuffleArray items in rret (pop shuffled).

(** [n] successive draws: the drawn numbers in order, and the pool
    left. *)
Fixpoint draw_n (n : nat) (items : list Z) : Rand (list Z * list Z) :=
  match n with
  | O => rret ([], items)
  | S n' =>
      let* r := draw_from_pool items in
      match r with
      | None => rret ([], items)
      | Some (x, items') =>
          let* rest := draw_n n' items' in rret (x :: rest.1, rest.2)
      end
  end.

(** The reference the shuffle-and-pop draw is measured against: one
    sample picks an index uniformly, the number there is drawn and
    removed. *)
Definition uniform_pick (items : list Z) : Rand (option (Z * list Z)) :=
  let* j := random_index (Z.of_nat (length items)) in
  match items !! Z.to_nat j with
  | Some x => rret (Some (x, delete (Z.to_nat j) items))
  | None => rret None
  end.

(** ** The shuffle permutes the pool *)

Lemma delete_insert_same (l : list Z) i z : delete i (<[i := z]> l) = delete i l.
Proof. revert i. induction l as [|y l IH]; intros [|i]; simpl; try done. by rewrite IH. Qed.

Lemma insert_Permutation (l : list Z) i x z :
  l !! i = Some x -> <[i := z]> l ≡ₚ z :: delete i l.
Proof.
  intros Hi. rewrite <-(delete_insert_same l i z). apply delete_Permutation.
  apply list_lookup_insert_eq. by apply lookup_lt_Some with x.
Qed.

(** A swap by destructuring assignment is a permutation. *)
Lemma swap_Permutation a i j : swap a i j ≡ₚ a.
Proof.
  unfold swap. destruct (a !! i) as [x|] eqn:Hi; [|done].
  destruct (a !! j) as [y|] eqn:Hj; [|done].
  destruct (decide (i = j)) as [<-|Hne].
  - rewrite Hi in Hj. injection Hj as ->.
    rewrite list_insert_insert_eq. by rewrite list_insert_id.
  - set (b := <[i := y]> a).
    assert (b !! j = Some y) as Hbj by (unfold b; by rewrite list_lookup_insert_ne).
    rewrite (insert_Permutation b j y x Hbj).
    assert (delete j b ≡ₚ delete i a) as Hd.
    { apply (Permutation_cons_inv (a := y)).
      rewrite <-(delete_Permutation b j y Hbj). unfold b. by apply insert_Permutation with x. }
    rewrite Hd. symmetry. by apply delete_Permutation.
Qed.

Lemma shuffle_loop_spec i a rs a' rs' :
  shuffle_loop i a rs = Some (a', rs') -> a' ≡ₚ a /\ length rs = (i + length rs')%nat.
Proof.
  revert a rs. induction i as [|i IH]; intros a rs H; simpl in H.
  - by injection H as <- <-.
  - apply rbind_inv in H as (j & rs1 & Hj & H).
    unfold random_index in Hj. apply rbind_inv in Hj as (m & rs0 & Hm & [= <- <-]).
    apply math_random_inv in Hm as (s & -> & _).
    destruct (IH _ _ H) as [Hp Hl]. split; [by rewrite Hp, swap_Permutation|simpl; lia].
Qed.

(** With enough samples, the shuffle runs to the end. *)
Lemma shuffle_loop_total i a rs :
  (i <= length rs)%nat -> exists a', shuffle_loop i a rs = Some (a', drop i rs).
Proof.
  revert a rs. induction i as [|i IH]; intros a rs H; [by eexists|].
  destruct rs as [|s rs]; simpl in H; [lia|].
  destruct (IH (swap a (S i) (Z.to_nat (floor_times (s mod two53) (Z.of_nat (S i) + 1)))) rs ltac:(lia))
    as [a' Ha']. exists a'. simpl. done.
Qed.

(** A swap leaves the other indices alone, and puts [a[j]] at [i]. *)
Lemma swap_lookup_other a i j k : k <> i -> k <> j -> swap a i j !! k = a !! k.
Proof.
  intros Hi Hj. unfold swap. destruct (a !! i), (a !! j); try done.
  rewrite !list_lookup_insert_ne by congruence. done.
Qed.

Lemma swap_lookup_here a i j x : (i < length a)%nat -> a !! j = Some x -> swap a i j !! i = Some x.
Proof.
  intros Hi Hj. unfold swap. destruct (lookup_lt_is_Some_2 a i Hi) as [y Hy]. rewrite Hy, Hj.
  destruct (decide (i = j)) as [<-|Hne].
  - rewrite list_lookup_insert_eq; [congruence|]. by rewrite length_insert.
  - rewrite list_lookup_insert_ne by done. apply list_lookup_insert_eq. done.
Qed.

(** The index drawn at step [i] is at most [i]: the loop never touches
    the part of the array past its index. *)
Lemma shuffle_loop_suffix i a rs a' rs' :
  shuffle_loop i a rs = Some (a', rs') -> forall k, (i < k)%nat -> a' !! k = a !! k.
Proof.
  revert a rs. induction i as [|i IH]; intros a rs H k Hk; simpl in H.
  - by injection H as <- _.
  - apply rbind_inv in H as (j & rs1 & Hj & H).
    unfold random_index in Hj. apply rbind_inv in Hj as (m & rs0 & Hm & [= <- <-]).
    apply math_random_inv in Hm as (s0 & -> & Hm).
    pose proof (floor_times_range (s0 mod two53) (Z.of_nat (S i) + 1) (mantissa_range s0)
      ltac:(lia)) as Hr.
    subst m. rewrite (IH _ _ H k) by lia. apply swap_lookup_other; lia.
Qed.

(** [pop] removes the last element. *)
Lemma pop_spec a x a' : pop a = Some (x, a') -> a = a' ++ [x].
Proof.
  unfold pop. destruct (last a) as [y|] eqn:E; [|done]. intros [= <- <-].
  apply last_Some in E as [l ->]. by rewrite removelast_last.
Qed.

Lemma pop_nonempty a : a <> [] -> exists x a', pop a = Some (x, a') /\ length a = S (length a').
Proof.
  intros Ha. destruct (exists_last Ha) as (l & x & ->). exists x, l.
  unfold pop. rewrite last_snoc, removelast_last. rewrite length_app. simpl. split; [done|lia].
Qed.

(** ** Draws *)

Lemma draw_from_pool_spec items rs r rs' :
  draw_from_pool items rs = Some (r, rs') ->
  match r with
  | Some (x, items') => items ≡ₚ items' ++ [x] /\ length rs = (length items - 1 + length rs')%nat
  | None => items = []
  end.
Proof.
  unfold draw_from_pool, shuffleArray. intros H.
  apply rbind_inv in H as (sh & rs1 & Hs & [= <- <-]).
  destruct (shuffle_loop_spec _ _ _ _ _ Hs) as [Hp Hl].
  destruct (pop sh) as [[x items']|] eqn:E.
  - apply pop_spec in E. rewrite <-E, Hp. split; [done|lia].
  - destruct sh as [|y sh]; [by apply Permutation_nil in Hp|].
    destruct (pop_nonempty (y :: sh)) as (? & ? & E' & _); [done|]. congruence.
Qed.

Lemma draw_from_pool_total items rs :
  items <> [] -> (length items - 1 <= length rs)%nat ->
  exists x items', draw_from_pool items rs = Some (Some (x, items'), drop (length items - 1) rs) /\
    items ≡ₚ items' ++ [x].
Proof.
  intros Hne Hl. unfold draw_from_pool, shuffleArray.
  destruct (shuffle_loop_total (length items - 1) items rs Hl) as [sh Hs].
  destruct (shuffle_loop_spec _ _ _ _ _ Hs) as [Hp _].
  destruct (pop_nonempty sh) as (x & items' & Hpop & _).
  { intros ->. apply Permutation_nil in Hp. done. }
  exists x, items'. rewrite (rbind_Some _ _ _ _ _ Hs). unfold rret. rewrite Hpop.
  split; [done|]. apply pop_spec in Hpop. by rewrite <-Hpop, Hp.
Qed.

(** C12: the draw of [drawItem] is a uniform pick: on a pool of at least
    two numbers, the full Fisher-Yates shuffle followed by [pop] draws the
    number at the index [Math.floor(r * n)] of the first sample [r], as
    [uniform_pick] does, and leaves the same pool up to order; the other
    [n - 2] samples only reorder the pool.  With [sample_for] every index
    is the pick of some sample, so every number of the pool can be drawn. *)
Theorem draw_from_pool_uniform items s rs :
  (2 <= length items)%nat -> (length items - 2 <= length rs)%nat ->
  exists x rest rest',
    draw_from_pool items (s :: rs) = Some (Some (x, rest), drop (length items - 2) rs) /\
    uniform_pick items [s] = Some (Some (x, rest'), []) /\ rest ≡ₚ rest'.
Proof.
  intros Hn Hs. destruct items as [|y0 items0] eqn:Ei; [simpl in Hn; lia|].
  rewrite <-Ei in *. set (n := length items).
  set (j := floor_times (s mod two53) (Z.of_nat n)).
  assert (0 <= j < Z.of_nat n) as Hj by (apply floor_times_range; [apply mantissa_range|lia]).
  destruct (lookup_lt_is_Some_2 items (Z.to_nat j) ltac:(lia)) as [x Hx].
  assert (n - 1 = S (n - 2))%nat as Hn1 by lia.
  set (a1 := swap items (S (n - 2)) (Z.to_nat j)).
  destruct (shuffle_loop_total (n - 2) a1 rs Hs) as [a' Ha'].
  assert (shuffleArray items (s :: rs) = Some (a', drop (n - 2) rs)) as Hsh.
  { unfold shuffleArray. fold n. rewrite Hn1. simpl. unfold rbind at 1. simpl.
    replace (Z.of_nat (S (n - 2)) + 1) with (Z.of_nat n) by lia. exact Ha'. }
  destruct (shuffle_loop_spec _ _ _ _ _ Hsh) as [Hp _].
  assert (a' !! S (n - 2) = Some x) as Hlast.
  { rewrite (shuffle_loop_suffix _ _ _ _ _ Ha') by lia. apply swap_lookup_here; [lia|done]. }
  assert (pop a' = Some (x, removelast a')) as Hpop.
  { unfold pop. rewrite last_lookup. apply Permutation_length in Hp.
    replace (pred (length a')) with (S (n - 2)) by (fold n in Hp; lia). by rewrite Hlast. }
  exists x, (removelast a'), (delete (Z.to_nat j) items). split_and!.
  - unfold draw_from_pool. by rewrite (rbind_Some _ _ _ _ _ Hsh), Hpop.
  - unfold uniform_pick. fold n. unfold rbind. rewrite random_index_cons. fold j. by rewrite Hx.
  - apply (Permutation_cons_inv (a := x)). rewrite <-(delete_Permutation _ _ _ Hx), <-Hp.
    rewrite (pop_spec _ _ _ Hpop) at 2. apply Permutation_cons_append.
Qed.

(** C22: after any number of draws, the drawn numbers and the pool left are
    together a permutation of the pool the draws started from: no
    number is lost, duplicated or invented ([DrawPool ∪ DrawnSet] is the
    start pool, and they are disjoint when it has no repetition). *)
Theorem draw_n_partition n items rs drawn rest rs' :
  draw_n n items rs = Some ((drawn, rest), rs') -> drawn ++ rest ≡ₚ items.
Proof.
  revert items rs drawn rest. induction n as [|n IH]; intros items rs drawn rest H; simpl in H.
  - by injection H as <- <-.
  - apply rbind_inv in H as (r & rs1 & Hr & H). apply draw_from_pool_spec in Hr.
    destruct r as [[x items']|].
    + destruct Hr as [Hp _]. apply rbind_inv in H as ([d1 r1] & rs2 & Hn & [= <- <- ?]). subst rs2.
      simpl. rewrite (IH _ _ _ _ Hn), Hp. apply Permutation_cons_append.
    + by injection H as <- <-.
Qed.

(** The samples [n] draws need from a pool of [n] numbers:
    [(n-1) + (n-2) + ... + 0]. *)
Fixpoint tri (n : nat) : nat := match n with O => O | S m => (m + tri m)%nat end.

Lemma draw_n_total n items rs :
  length items = n -> (tri n <= length rs)%nat ->
  exists drawn rs', draw_n n items rs = Some ((drawn, []), rs') /\ drawn ≡ₚ items.
Proof.
  revert items rs. induction n as [|n IH]; intros items rs Hl Hs.
  - destruct items; [|done]. by exists [], rs.
  - simpl in Hs. assert (items <> []) as Hne by (intros ->; done).
    destruct (draw_from_pool_total items rs Hne ltac:(lia)) as (x & items' & Hd & Hp).
    assert (length items' = n) as Hl'.
    { apply Permutation_length in Hp. rewrite length_app in Hp. simpl in Hp. lia. }
    destruct (IH items' (drop (length items - 1) rs) Hl' ltac:(rewrite length_drop; lia))
      as (drawn & rs' & Hn & Hpn).
    exists (x :: drawn), rs'. simpl. rewrite (rbind_Some _ _ _ _ _ Hd).
    rewrite (rbind_Some _ _ _ _ _ Hn). split; [done|].
    rewrite Hp, Hpn. apply Permutation_cons_append.
Qed.

Lemma generateNumbersList_seqZ : generateNumbersList = seqZ 1 99.
Proof. vm_compute. reflexivity. Qed.

(** C23: from the fresh pool of [generateNumbersList], 99 draws always
    succeed when the random stream has the [4851] samples the 99 shuffles
    use: they empty the pool and draw every number of 1..99 exactly
    once. *)
Theorem draw_all_numbers rs :
  (tri 99 <= length rs)%nat ->
  exists drawn rs', draw_n 99 generateNumbersList rs = Some ((drawn, []), rs') /\
    drawn ≡ₚ seqZ 1 99 /\ NoDup drawn.
Proof.
  intros Hs. destruct (draw_n_total 99 generateNumbersList rs eq_refl Hs) as (drawn & rs' & Hd & Hp).
  exists drawn, rs'. split; [done|]. rewrite Hp, generateNumbersList_seqZ. split; [done|]. apply NoDup_seqZ.
Qed.

Lemma draw_n_partition_witness :
  exists drawn rest rs', draw_n 2 [1; 2; 3] [7; 11; 13] = Some ((drawn, rest), rs') /\
    drawn ++ rest ≡ₚ [1; 2; 3].
Proof.
  assert (draw_n 2 [1; 2; 3] [7; 11; 13] = Some (([1; 2], [3]), [])) as H
    by (vm_compute; reflexivity).
  exists [1; 2], [3], []. split; [exact H|]. exact (draw_n_partition _ _ _ _ _ _ H).
Defined.

Lemma draw_all_numbers_witness :
  (tri 99 <= length (repeat 0 4851))%nat /\
  exists drawn rs', draw_n 99 generateNumbersList (repeat 0 4851) = Some ((drawn, []), rs') /\
    drawn ≡ₚ seqZ 1 99 /\ NoDup drawn.
Proof.
  assert (tri 99 <= length (repeat 0 4851))%nat as H by (apply Nat.leb_le; vm_compute; reflexivity).
  split; [exact H|]. apply draw_all_numbers. exact H.
Defined.

Lemma draw_from_pool_uniform_witness :
  (2 <= length [10; 20; 30; 40])%nat /\ (length [10; 20; 30; 40] - 2 <= length [0; 0])%nat /\
  exists x rest rest',
    draw_from_pool [10; 20; 30; 40] (sample_for 4 2 :: [0; 0]) =
      Some (Some (x, rest), drop (length [10; 20; 30; 40] - 2) [0; 0]) /\
    uniform_pick [10; 20; 30; 40] [sample_for 4 2] = Some (Some (x, rest'), []) /\ rest ≡ₚ rest'.
Proof.
  split; [simpl; lia|]. split; [simpl; lia|].
  apply draw_from_pool_uniform; simpl; lia.
Defined.
