(* ===== verification/Game.v ===== *)
(** * The game: event handlers, timer and win check (src/script.js,
      lines 68-100 and 119-236)

    The state of the page is the record [game]: the global variables
    [items], [gameActive] and [drawInterval], the intervals scheduled with
    [setInterval] ([timers], with the next handle [next_timer]), the list
    of drawn numbers shown in [#results], the [.ticket] elements of
    [#tickets] (their cells, with the [highlight] class, and the
    [winner] class), the [disabled] state of the start button (its label
    is set together with it) and the alerts shown.  The delay of the
    [setTimeout] of the win alert is not modelled: the alert is recorded
    when it is scheduled.  Each handler is a function of the state in the
    monad [Rand]; [step] is the event loop: a click on one of the three
    buttons, or a tick of a scheduled interval. *)

From stdpp Require Import base list sorting sets.
From Stdlib Require Import ZArith Lia.
From S2P Require Import Prelude Random Ticket Grid Draw.

Open Scope Z_scope.
Open Scope loto_scope.

(** ** The page *)

(** A [.ticket-cell]: its [data-value] ([None] for an [.empty-cell]) and
    whether it has the [highlight] class. *)
Record cell := mkCell { cell_value : option Z; cell_highlight : bool }.

(** A [.ticket] element: its [.ticket-row]s and the [winner] class. *)
Record ticket_el := mkTicketEl { te_rows : list (list cell); te_winner : bool }.

Inductive alert_msg :=
| AlertNoTickets   (** "Veuillez d'abord générer des tickets !" *)
| AlertWin         (** "Félicitations ! Un ticket a gagné !" *)
| AlertBadCount.   (** "Veuillez entrer un nombre entre 1 et 20" *)

Record game := mkGame {
  items : list Z;              (** [let items] *)
  gameActive : bool;           (** [let gameActive] *)
  drawInterval : option nat;   (** [let drawInterval] ([undefined] at first) *)
  timers : list nat;           (** the intervals that are scheduled *)
  next_timer : nat;            (** the handle the next [setInterval] returns *)
  results : list Z;            (** the [<li>] of [#results] *)
  tickets : list ticket_el;    (** the [.ticket] elements of [#tickets] *)
  start_disabled : bool;       (** [startBtn.disabled] *)
  alerts : list alert_msg      (** the alerts, in order *)
}.

(** The page when the script has run: [items = generateNumbersList()],
    [gameActive = false], no ticket. *)
Definition game_init : game :=
  mkGame generateNumbersList false None [] 0 [] [] false [].

(** [alert(msg)]: the message is shown, nothing else changes. *)
Definition push_alert (a : alert_msg) (g : game) : game :=
  mkGame (items g) (gameActive g) (drawInterval g) (timers g) (next_timer g)
    (results g) (tickets g) (start_disabled g) (alerts g ++ [a]).

(** ** [displayTickets] (lines 68-100) *)

(** The [.ticket] element of an organized ticket: a cell per grid cell,
    none highlighted, not a winner. *)
Definition ticket_el_of_grid (g : grid) : ticket_el :=
  mkTicketEl ((fun rw : row => (fun o => mkCell o false) <$> rw) <$> g) false.

(** [tickets.forEach(ticket => { const organizedTicket = organizeTicket(ticket); ... })] *)
Definition displayTickets (ts : list (list Z)) : Rand (list ticket_el) :=
  let* grids := rmap organizeTicket ts in rret (ticket_el_of_grid <$> grids).

(** ** [stopDraw] (lines 202-208) *)

(** [clearInterval(drawInterval); gameActive = false;
     startBtn.disabled = false; startBtn.textContent = "Lancer le tirage";]
    [clearInterval(undefined)] does nothing. *)
Definition stopDraw (g : game) : game :=
  mkGame (items g) false (drawInterval g)
    (match drawInterval g with
     | Some h => filter (fun h' => h' <> h) (timers g)
     | None => timers g
     end)
    (next_timer g) (results g) (tickets g) false (alerts g).

(** ** [checkWinningTickets] (lines 154-180) *)

(** A [.ticket-row] is winning when it has 5 cells that are not
    [.empty-cell] and 5 [.highlight] cells. *)
Definition row_is_winning (rw : list cell) : bool :=
  (length (filter (fun c => is_Some (cell_value c)) rw) =? 5)%nat &&
  (length (filter (fun c => cell_highlight c = true) rw) =? 5)%nat.

Definition hasWinningLine (te : ticket_el) : bool := existsb row_is_winning (te_rows te).

(** The callback on one [.ticket]:
    [if (hasWinningLine && !ticket.classList.contains('winner')) {
       ticket.classList.add('winner'); gameActive = false; stopDraw();
       setTimeout(() => alert(...), 500); }] *)
Definition check_ticket (g : game) (te : ticket_el) : game * ticket_el :=
  if hasWinningLine te && negb (te_winner te) then
    let g1 := stopDraw (mkGame (items g) false (drawInterval g) (timers g) (next_timer g)
                          (results g) (tickets g) (start_disabled g) (alerts g)) in
    (mkGame (items g1) (gameActive g1) (drawInterval g1) (timers g1) (next_timer g1)
       (results g1) (tickets g1) (start_disabled g1) (alerts g1 ++ [AlertWin]),
     mkTicketEl (te_rows te) true)
  else (g, te).

(** [tickets.forEach(...)], in document order, threading the globals. *)
Fixpoint check_tickets (g : game) (tes : list ticket_el) : game * list ticket_el :=
  match tes with
  | [] => (g, [])
  | te :: tes' =>
      let '(g1, te1) := check_ticket g te in
      let '(g2, tes2) := check_tickets g1 tes' in
      (g2, te1 :: tes2)
  end.

Definition checkWinningTickets (g : game) : game :=
  let '(g1, tes) := check_tickets g (tickets g) in
  mkGame (items g1) (gameActive g1) (drawInterval g1) (timers g1) (next_timer g1)
    (results g1) tes (start_disabled g1) (alerts g1).

(** ** [highlightTickets] (lines 141-151) *)

(** [if (parseInt(cell.dataset.value) === drawnNumber) cell.classList.add('highlight');]
    An empty cell has no [data-value]: [parseInt(undefined)] is [NaN]. *)
Definition highlight_cell (x : Z) (c : cell) : cell :=
  if decide (cell_value c = Some x) then mkCell (cell_value c) true else c.

Definition highlight_ticket (x : Z) (te : ticket_el) : ticket_el :=
  mkTicketEl ((fun rw : list cell => highlight_cell x <$> rw) <$> te_rows te) (te_winner te).

Definition highlightTickets (x : Z) (g : game) : game :=
  checkWinningTickets
    (mkGame (items g) (gameActive g) (drawInterval g) (timers g) (next_timer g)
       (results g) (highlight_ticket x <$> tickets g) (start_disabled g) (alerts g)).

(** ** [drawItem] (lines 125-138) *)

(** [if (items.length > 0 && gameActive) {
       shuffleArray(items); const drawnItem = items.pop();
       results.appendChild(<li>drawnItem</li>); highlightTickets(drawnItem);
     } else stopDraw();]
    [items.pop()] on the shuffled, non-empty array always returns a
    number. *)
Definition drawItem (g : game) : Rand game :=
  if (0 <? length (items g))%nat && gameActive g then
    let* shuffled := shuffleArray (items g) in
    match pop shuffled with
    | Some (x, rest) =>
        rret (highlightTickets x
          (mkGame rest (gameActive g) (drawInterval g) (timers g) (next_timer g)
             (results g ++ [x]) (tickets g) (start_disabled g) (alerts g)))
    | None =>
        rret (stopDraw (mkGame shuffled (gameActive g) (drawInterval g) (timers g)
                          (next_timer g) (results g) (tickets g) (start_disabled g) (alerts g)))
    end
  else rret (stopDraw g).

(** ** [startDraw] (lines 183-199) *)

(** [if (no .ticket) { alert(...); return; } if (gameActive) return;
     gameActive = true; startBtn.disabled = true; ...;
     drawInterval = setInterval(drawItem, 300);] *)
Definition startDraw (g : game) : game :=
  if decide (tickets g = []) then push_alert AlertNoTickets g
  else if gameActive g then g
  else
    mkGame (items g) true (Some (next_timer g)) (timers g ++ [next_timer g]) (S (next_timer g))
      (results g) (tickets g) true (alerts g).

(** ** [resetGame] (lines 211-219) *)

(** [items = generateNumbersList(); stopDraw();
     results.innerHTML = ""; tickets.innerHTML = ""; gameActive = false;] *)
Definition resetGame (g : game) : game :=
  let g1 := stopDraw (mkGame generateNumbersList (gameActive g) (drawInterval g) (timers g)
                        (next_timer g) (results g) (tickets g) (start_disabled g) (alerts g)) in
  mkGame (items g1) false (drawInterval g1) (timers g1) (next_timer g1) [] [] (start_disabled g1)
    (alerts g1).

(** ** The generate button (lines 222-233) *)

(** [parseInt(input.value) || 5]: the parsed number, [None] for [NaN];
    [NaN] and [0] are falsy and give 5. *)
Definition numberOfTickets_of (parsed : option Z) : Z :=
  match parsed with
  | Some n => if n =? 0 then 5 else n
  | None => 5
  end.

(** [if (n < 1 || n > 20) { alert(...); return; }
     resetGame(); const tickets = generateMultipleTickets(n); displayTickets(tickets);] *)
Definition onGenerate (parsed : option Z) (g : game) : Rand game :=
  let n := numberOfTickets_of parsed in
  if (n <? 1) || (20 <? n) then rret (push_alert AlertBadCount g)
  else
    let g1 := resetGame g in
    let* ts := generateMultipleTickets n in
    let* tes := displayTickets ts in
    rret (mkGame (items g1) (gameActive g1) (drawInterval g1) (timers g1) (next_timer g1)
            (results g1) tes (start_disabled g1) (alerts g1)).

(** ** The event loop *)

Inductive event :=
| ClickGenerate (parsed : option Z)   (** [#generateBtn], with the parsed input *)
| ClickStart                          (** [#startDrawBtn] *)
| ClickReset                          (** [#resetBtn] *)
| Tick (h : nat).                     (** the interval [h] fires [drawItem] *)

Definition handle (e : event) (g : game) : Rand game :=
  match e with
  | ClickGenerate p => onGenerate p g
  | ClickStart => rret (startDraw g)
  | ClickReset => rret (resetGame g)
  | Tick _ => drawItem g
  end.

(** An interval fires only while it is scheduled. *)
Definition enabled (e : event) (g : game) : Prop :=
  match e with Tick h => h ∈ timers g | _ => True end.

(** One event, with the random samples its handler draws. *)
Inductive step : game -> game -> Prop :=
| step_event e g g' rs rs' :
    enabled e g -> handle e g rs = Some (g', rs') -> step g g'.

Inductive reachable : game -> Prop :=
| reach_init : reachable game_init
| reach_step g g' : reachable g -> step g g' -> reachable g'.

(** ** Invariants of the page *)

(** The interval discipline: while [gameActive] the start button is
    disabled and exactly the interval [drawInterval] is scheduled; while
    not, none is and the button is enabled. *)
Definition timers_inv (g : game) : Prop :=
  start_disabled g = gameActive g /\
  if gameActive g then exists h, drawInterval g = Some h /\ timers g = [h] else timers g = [].

(** The pool: the numbers shown in [#results] and those left in [items]
    are together 1..99, each once. *)
Definition pool_inv (g : game) : Prop := results g ++ items g ≡ₚ seqZ 1 99.

(** A cell holds a number of [R]. *)
Definition cell_drawn (R : list Z) (c : cell) : bool :=
  match cell_value c with Some v => bool_decide (v ∈ R) | None => false end.

(** A cell is highlighted exactly when it holds a drawn number. *)
Definition cell_ok (R : list Z) (c : cell) : Prop := cell_highlight c = cell_drawn R c.

Definition highlight_inv (g : game) : Prop :=
  Forall (fun te => Forall (Forall (cell_ok (results g))) (te_rows te)) (tickets g).

(** A ticket has the [winner] class exactly when it has a winning row. *)
Definition winner_inv (g : game) : Prop :=
  Forall (fun te => te_winner te = hasWinningLine te) (tickets g).

Definition game_inv (g : game) : Prop :=
  timers_inv g /\ pool_inv g /\ highlight_inv g /\ winner_inv g.

(** ** Frame lemmas of the handlers *)

Lemma stopDraw_clear g :
  (timers g = [] \/ exists h, drawInterval g = Some h /\ timers g = [h]) -> timers (stopDraw g) = [].
Proof.
  unfold stopDraw; cbn [timers]. intros [Ht|(h & Hd & Ht)]; rewrite Ht.
  - by destruct (drawInterval g).
  - rewrite Hd, filter_cons_False by congruence. done.
Qed.

Lemma timers_inv_clear g :
  timers_inv g -> timers g = [] \/ exists h, drawInterval g = Some h /\ timers g = [h].
Proof. intros [_ H]. destruct (gameActive g); [right|left]; done. Qed.

Lemma stopDraw_timers_inv g : timers_inv g -> timers_inv (stopDraw g).
Proof.
  intros H. split; [done|]. apply stopDraw_clear, timers_inv_clear, H.
Qed.

(** What [check_ticket] does to one ticket and to the globals. *)
Lemma check_ticket_frame g te g' te' :
  check_ticket g te = (g', te') ->
  items g' = items g /\ results g' = results g /\ next_timer g' = next_timer g /\
  (timers_inv g -> timers_inv g') /\
  te_rows te' = te_rows te /\ te_winner te' = te_winner te || hasWinningLine te.
Proof.
  unfold check_ticket. destruct (hasWinningLine te && negb (te_winner te)) eqn:Hc;
    intros [= <- <-].
  - apply andb_prop in Hc as [Hw Hn]. apply negb_true_iff in Hn. rewrite Hw, Hn.
    split_and!; try done. intros Hinv. split; [done|]. cbn [gameActive].
    apply stopDraw_clear, timers_inv_clear, Hinv.
  - split_and!; try done. by destruct (hasWinningLine te), (te_winner te).
Qed.

Lemma check_tickets_frame g tes g' tes' :
  check_tickets g tes = (g', tes') ->
  items g' = items g /\ results g' = results g /\ next_timer g' = next_timer g /\
  (timers_inv g -> timers_inv g') /\
  Forall2 (fun te te' => te_rows te' = te_rows te /\
                         te_winner te' = te_winner te || hasWinningLine te) tes tes'.
Proof.
  revert g tes'. induction tes as [|te tes IH]; intros g tes' H; simpl in H.
  - injection H as <- <-. do 3 (split; [done|]). split; [done|constructor].
  - destruct (check_ticket g te) as [g1 te1] eqn:E1.
    destruct (check_tickets g1 tes) as [g2 tes2] eqn:E2. injection H as <- <-.
    destruct (check_ticket_frame _ _ _ _ E1) as (Hi1 & Hr1 & Hn1 & Ht1 & Hrow1 & Hw1).
    destruct (IH _ _ E2) as (Hi2 & Hr2 & Hn2 & Ht2 & HF).
    split_and!; try congruence; auto.
Qed.

(** [highlightTickets x] changes the tickets' cells and flags, the
    interval state, and nothing else. *)
Lemma highlightTickets_frame x g :
  items (highlightTickets x g) = items g /\ results (highlightTickets x g) = results g /\
  next_timer (highlightTickets x g) = next_timer g /\
  (timers_inv g -> timers_inv (highlightTickets x g)) /\
  Forall2 (fun te te' => te_rows te' = te_rows (highlight_ticket x te) /\
                         te_winner te' = te_winner te || hasWinningLine (highlight_ticket x te))
    (tickets g) (tickets (highlightTickets x g)).
Proof.
  unfold highlightTickets, checkWinningTickets. simpl.
  destruct (check_tickets _ _) as [g1 tes] eqn:E.
  destruct (check_tickets_frame _ _ _ _ E) as (Hi & Hr & Hn & Ht & HF). simpl.
  do 3 (split; [done|]). split.
  - intros [H1 H2]. apply Ht. by split.
  - by apply Forall2_fmap_l in HF.
Qed.

(** ** The win check on the page and on the data *)

(** The numbers of a ticket element, row by row. *)
Definition grid_of (te : ticket_el) : grid :=
  (fun rw : list cell => cell_value <$> rw) <$> te_rows te.

(** The abstract win condition: a row holds 5 numbers and every one of
    them has been drawn. *)
Definition row_complete (R : list Z) (rw : row) : bool :=
  (count_some rw =? 5)%nat &&
  forallb (fun o => match o with Some v => bool_decide (v ∈ R) | None => true end) rw.

Definition ticket_wins (R : list Z) (g : grid) : bool := existsb (row_complete R) g.

Lemma length_filter_impl {A} (P Q : A -> Prop) `{!∀ x, Decision (P x), !∀ x, Decision (Q x)} l :
  (forall x, Q x -> P x) ->
  (length (filter Q l) <= length (filter P l))%nat /\
  (length (filter Q l) = length (filter P l) <-> Forall (fun x => P x -> Q x) l).
Proof.
  intros HQP. induction l as [|x l [IHle IHeq]]; [split; [done|]; split; constructor|].
  rewrite Forall_cons. destruct (decide (Q x)) as [Hq|Hq].
  - rewrite !filter_cons_True by auto. simpl. split; [lia|]. rewrite <-IHeq. naive_solver lia.
  - rewrite (filter_cons_False Q) by done. destruct (decide (P x)) as [Hp|Hp].
    + rewrite filter_cons_True by done. simpl. split; [lia|]. split; [lia|naive_solver].
    + rewrite filter_cons_False by done. split; [done|]. rewrite IHeq. naive_solver.
Qed.

Lemma count_some_cells (rw : list cell) :
  length (filter (fun c => is_Some (cell_value c)) rw) = count_some (cell_value <$> rw).
Proof.
  induction rw as [|c rw IH]; [done|]. rewrite fmap_cons, count_some_cons.
  destruct (cell_value c) eqn:E.
  - rewrite filter_cons_True by (rewrite E; by eexists). simpl. by rewrite IH.
  - rewrite filter_cons_False by (rewrite E; by intros []). done.
Qed.

(** On a row whose highlights are those of the drawn numbers [R], the
    page's test ([.ticket-cell:not(.empty-cell)] and
    [.ticket-cell.highlight] both 5) is the abstract one. *)
Lemma row_is_winning_complete R (rw : list cell) :
  Forall (cell_ok R) rw -> row_is_winning rw = row_complete R (cell_value <$> rw).
Proof.
  intros Hok. unfold row_is_winning, row_complete. rewrite <-count_some_cells.
  set (P := fun c : cell => is_Some (cell_value c)).
  assert (filter (fun c => cell_highlight c = true) rw =
          filter (fun c => cell_drawn R c = true) rw) as ->.
  { clear -Hok. induction Hok as [|c rw Hc _ IH]; [done|]. by rewrite !filter_cons, Hc, IH. }
  destruct (length_filter_impl P (fun c => cell_drawn R c = true) rw) as [Hle Heq].
  { intros c. unfold cell_drawn, P. destruct (cell_value c); [by eexists|done]. }
  destruct (Nat.eqb_spec (length (filter P rw)) 5) as [H5|H5]; simpl; [|done].
  rewrite <-H5. apply eq_iff_eq_true. rewrite Nat.eqb_eq, Heq, forallb_Forall, Forall_fmap.
  apply Forall_iff. intros c. unfold P, cell_drawn. simpl.
  destruct (cell_value c) as [z|] eqn:E; rewrite ?E; simpl.
  - split; [naive_solver|]. intros H _. done.
  - split; [done|]. intros _ []. done.
Qed.

Lemma ticket_wins_page R te :
  Forall (Forall (cell_ok R)) (te_rows te) -> hasWinningLine te = ticket_wins R (grid_of te).
Proof.
  unfold hasWinningLine, ticket_wins, grid_of. induction (te_rows te) as [|rw rws IH];
    intros Hok; [done|]. apply Forall_cons in Hok as [Hrw Hrws].
  rewrite fmap_cons. simpl. by rewrite (row_is_winning_complete R), IH.
Qed.

Lemma highlight_cell_ok R x c : cell_ok R c -> cell_ok (R ++ [x]) (highlight_cell x c).
Proof.
  unfold cell_ok, cell_drawn, highlight_cell. intros Hc.
  destruct (decide (cell_value c = Some x)) as [E|E]; simpl; rewrite ?E.
  - symmetry. apply bool_decide_eq_true. set_solver.
  - rewrite Hc. destruct (cell_value c) as [v|]; [|done]. apply bool_decide_ext.
    rewrite elem_of_app, list_elem_of_singleton. naive_solver.
Qed.

Lemma highlight_ticket_ok R x te :
  Forall (Forall (cell_ok R)) (te_rows te) ->
  Forall (Forall (cell_ok (R ++ [x]))) (te_rows (highlight_ticket x te)).
Proof.
  intros H. simpl. apply Forall_fmap. eapply Forall_impl; [exact H|]. intros rw Hrw. simpl.
  apply Forall_fmap. eapply Forall_impl; [exact Hrw|]. intros c. apply highlight_cell_ok.
Qed.

Lemma highlight_ticket_grid x te : grid_of (highlight_ticket x te) = grid_of te.
Proof.
  unfold grid_of. simpl. rewrite <-list_fmap_compose. apply list_fmap_ext. intros _ rw _. simpl.
  rewrite <-list_fmap_compose. apply list_fmap_ext. intros _ c _. unfold highlight_cell.
  simpl. by destruct (decide _).
Qed.

(** A row that is complete stays complete when more numbers are drawn. *)
Lemma row_complete_mono R x rw : row_complete R rw = true -> row_complete (R ++ [x]) rw = true.
Proof.
  unfold row_complete. rewrite !andb_true_iff, !forallb_Forall. intros [H5 Hall]. split; [done|].
  eapply Forall_impl; [exact Hall|]. intros [v|]; [|done]. rewrite !bool_decide_eq_true.
  set_solver.
Qed.

Lemma ticket_wins_mono R x g : ticket_wins R g = true -> ticket_wins (R ++ [x]) g = true.
Proof.
  unfold ticket_wins. rewrite !existsb_exists. intros (rw & Hin & H).
  exists rw. split; [done|]. by apply row_complete_mono.
Qed.

(** ** Each handler keeps the invariants *)

Lemma game_inv_frame g g' :
  game_inv g -> items g' = items g -> results g' = results g -> tickets g' = tickets g ->
  timers_inv g' -> game_inv g'.
Proof.
  intros (_ & Hp & Hh & Hw) Hi Hr Ht Htim. unfold game_inv, pool_inv, highlight_inv, winner_inv.
  rewrite Hi, Hr, Ht. done.
Qed.

Lemma stopDraw_inv g : game_inv g -> game_inv (stopDraw g).
Proof. intros Hg. apply (game_inv_frame g); try done. apply stopDraw_timers_inv, Hg. Qed.

Lemma resetGame_inv g : timers_inv g -> game_inv (resetGame g).
Proof.
  intros Htim. split_and!.
  - split; [done|]. simpl. apply stopDraw_clear, timers_inv_clear, Htim.
  - unfold pool_inv. simpl. by rewrite generateNumbersList_seqZ.
  - constructor.
  - constructor.
Qed.

Lemma startDraw_inv g : game_inv g -> game_inv (startDraw g).
Proof.
  intros Hg. unfold startDraw. destruct (decide (tickets g = [])).
  - apply (game_inv_frame g); try done. apply Hg.
  - destruct (gameActive g) eqn:Ha; [done|]. apply (game_inv_frame g); try done.
    destruct Hg as ([_ Ht] & _). rewrite Ha in Ht. split; [done|]. simpl.
    exists (next_timer g). by rewrite Ht.
Qed.

(** A ticket element of [displayTickets] is clean: no highlight, no
    winning row. *)
Lemma ticket_el_of_grid_fresh gr :
  Forall (Forall (cell_ok [])) (te_rows (ticket_el_of_grid gr)) /\
  te_winner (ticket_el_of_grid gr) = hasWinningLine (ticket_el_of_grid gr).
Proof.
  split.
  - simpl. apply Forall_fmap, Forall_forall. intros rw _. simpl. apply Forall_fmap, Forall_forall.
    intros [v|] _; [|done]. unfold cell_ok, cell_drawn. simpl.
    reflexivity.
  - unfold hasWinningLine. simpl. symmetry. apply not_true_iff_false. rewrite existsb_exists.
    intros (rw & Hin & Hw). apply list_elem_of_In, list_elem_of_fmap in Hin as (rw0 & -> & _).
    unfold row_is_winning in Hw. apply andb_true_iff in Hw as [_ Hw].
    assert (filter (fun c => cell_highlight c = true) ((fun o => mkCell o false) <$> rw0) = [])
      as Hnil.
    { clear Hw. induction rw0 as [|o rw0 IH]; [done|]. rewrite fmap_cons, filter_cons_False; [done|].
      simpl. congruence. }
    by rewrite Hnil in Hw.
Qed.

Lemma displayTickets_fresh ts rs tes rs' :
  displayTickets ts rs = Some (tes, rs') ->
  Forall (fun te => Forall (Forall (cell_ok [])) (te_rows te) /\ te_winner te = hasWinningLine te) tes.
Proof.
  unfold displayTickets. intros H. apply rbind_inv in H as (grids & rs1 & _ & [= <- _]).
  apply Forall_fmap, Forall_forall. intros gr _. apply ticket_el_of_grid_fresh.
Qed.

Lemma onGenerate_inv p g rs g' rs' :
  game_inv g -> onGenerate p g rs = Some (g', rs') -> game_inv g'.
Proof.
  intros Hg. unfold onGenerate. destruct (_ || _).
  - intros [= <- _]. apply (game_inv_frame g); try done. apply Hg.
  - intros H. apply rbind_inv in H as (ts & rs1 & _ & H).
    apply rbind_inv in H as (tes & rs2 & Hd & [= <- _]).
    destruct (resetGame_inv g (proj1 Hg)) as (Htim & Hp & _ & _).
    apply displayTickets_fresh, Forall_and in Hd as [Hh Hw].
    split_and!; done.
Qed.

(** A ticket that was flagged exactly when it had a winning row is, after
    the draw of [x] and the check, flagged exactly when it has one. *)
Lemma draw_ticket_winner R x te :
  Forall (Forall (cell_ok R)) (te_rows te) -> te_winner te = hasWinningLine te ->
  te_winner te || hasWinningLine (highlight_ticket x te) = hasWinningLine (highlight_ticket x te).
Proof.
  intros Hok Hw. rewrite Hw, (ticket_wins_page R) by done.
  rewrite (ticket_wins_page (R ++ [x]) (highlight_ticket x te)); [|by apply highlight_ticket_ok].
  rewrite highlight_ticket_grid.
  destruct (ticket_wins R (grid_of te)) eqn:E; [|done]. by rewrite ticket_wins_mono.
Qed.

(** The draw branch of [drawItem]: the pool, the highlights and the
    winner flags move together. *)
Lemma draw_step_inv g x rest :
  game_inv g -> items g ≡ₚ rest ++ [x] ->
  game_inv (highlightTickets x (mkGame rest (gameActive g) (drawInterval g) (timers g)
             (next_timer g) (results g ++ [x]) (tickets g) (start_disabled g) (alerts g))).
Proof.
  intros (Htim & Hp & Hh & Hw) Hperm.
  set (g0 := mkGame rest (gameActive g) (drawInterval g) (timers g) (next_timer g)
               (results g ++ [x]) (tickets g) (start_disabled g) (alerts g)).
  destruct (highlightTickets_frame x g0) as (Hi & Hr & _ & Ht & HF).
  change (tickets g0) with (tickets g) in HF.
  split_and!.
  - by apply Ht.
  - unfold pool_inv in *. rewrite Hi, Hr. simpl. rewrite <-Hp, Hperm, <-app_assoc.
    apply Permutation_app_head, Permutation_app_comm.
  - unfold highlight_inv. rewrite Hr. simpl. apply (Forall2_transport _ _ _ _ _ HF Hh).
    intros te te' [Hrows _] Hok. rewrite Hrows. by apply highlight_ticket_ok.
  - unfold winner_inv. apply (Forall2_transport _ _ _ _ _ HF (proj2 (Forall_and _ _) (conj Hh Hw))).
    intros te te' [Hrows Hwin] [Hok Hwte]. rewrite Hwin.
    transitivity (hasWinningLine (highlight_ticket x te)).
    + by apply (draw_ticket_winner (results g)).
    + unfold hasWinningLine. by rewrite Hrows.
Qed.

(** The two outcomes of [drawItem]: a draw of the last element of the
    shuffled pool, or [stopDraw]. *)
Lemma drawItem_cases g rs g' rs' :
  drawItem g rs = Some (g', rs') ->
  (gameActive g = true /\ exists x rest, items g ≡ₚ rest ++ [x] /\
     g' = highlightTickets x (mkGame rest (gameActive g) (drawInterval g) (timers g)
            (next_timer g) (results g ++ [x]) (tickets g) (start_disabled g) (alerts g))) \/
  ((gameActive g = false \/ items g = []) /\ g' = stopDraw g).
Proof.
  unfold drawItem. destruct (_ && _) eqn:Hc.
  - intros H. apply andb_true_iff in Hc as [Hl Ha]. apply Nat.ltb_lt in Hl. left. split; [done|].
    apply rbind_inv in H as (sh & rs1 & Hs & H).
    apply shuffle_loop_spec in Hs as [Hsh _].
    destruct (pop sh) as [[x rest]|] eqn:Hpop.
    + injection H as <- _. exists x, rest. split; [|done].
      apply pop_spec in Hpop. by rewrite <-Hpop.
    + exfalso. destruct (pop_nonempty sh) as (? & ? & E & _); [|congruence].
      intros ->. apply Permutation_nil in Hsh. rewrite Hsh in Hl. simpl in Hl. lia.
  - intros [= <- _]. right. split; [|done].
    destruct (gameActive g); [|by left]. right. destruct (items g); [done|].
    rewrite andb_true_r in Hc. simpl in Hc. done.
Qed.

Lemma drawItem_inv g rs g' rs' : game_inv g -> drawItem g rs = Some (g', rs') -> game_inv g'.
Proof.
  intros Hg H. apply drawItem_cases in H as [(_ & x & rest & Hp & ->)|(_ & ->)].
  - by apply draw_step_inv.
  - by apply stopDraw_inv.
Qed.

Lemma step_inv g g' : game_inv g -> step g g' -> game_inv g'.
Proof.
  intros Hg Hs. inversion Hs as [e ? ? rs rs' _ H]; subst. destruct e; simpl in H.
  - by apply (onGenerate_inv _ _ _ _ _ Hg H).
  - injection H as <- _. by apply startDraw_inv.
  - injection H as <- _. apply resetGame_inv, Hg.
  - by apply (drawItem_inv _ _ _ _ Hg H).
Qed.

Lemma game_init_inv : game_inv game_init.
Proof.
  split_and!; try constructor; try done. all: unfold pool_inv; simpl; by rewrite generateNumbersList_seqZ.
Qed.

Lemma reachable_inv g : reachable g -> game_inv g.
Proof.
  induction 1 as [|g g' _ IH Hs]; [apply game_init_inv|]. by apply (step_inv g).
Qed.

(** ** Properties of the reachable pages *)

(** C9: in every reachable page the interval discipline holds: the
    start button is disabled exactly while [gameActive], an interval is
    scheduled exactly while [gameActive], and the only interval ever
    scheduled is the one [drawInterval] holds, so [stopDraw] and
    [resetGame] always cancel the draw. *)
Theorem reachable_timers g :
  reachable g ->
  start_disabled g = gameActive g /\ (gameActive g = true <-> timers g <> []) /\
  (forall h, h ∈ timers g -> drawInterval g = Some h /\ timers g = [h]).
Proof.
  intros Hr. destruct (reachable_inv g Hr) as ([Hd Ht] & _). split; [done|].
  destruct (gameActive g).
  - destruct Ht as (h & Hdi & Ht). rewrite Ht. split; [done|].
    intros h' ->%list_elem_of_singleton. done.
  - rewrite Ht. split; [done|]. intros h Hh. by apply not_elem_of_nil in Hh.
Qed.

(** C8: in every reachable page the numbers shown in [#results] and the
    pool [items] are together 1..99, each exactly once: no number is drawn
    twice and none is lost, across draws, wins, resets and new tickets. *)
Theorem reachable_pool g :
  reachable g -> results g ++ items g ≡ₚ seqZ 1 99 /\ NoDup (results g ++ items g).
Proof.
  intros Hr. destruct (reachable_inv g Hr) as (_ & Hp & _). split; [done|].
  unfold pool_inv in Hp. rewrite Hp. apply NoDup_seqZ.
Qed.

(** C7: the win check of the page refines the abstract condition on the
    data: in every reachable page, a ticket has the [winner] class, and
    [checkWinningTickets] finds a winning line in it, exactly when one row
    of its grid holds 5 numbers that have all been drawn. *)
Theorem reachable_win_refinement g te :
  reachable g -> te ∈ tickets g ->
  te_winner te = ticket_wins (results g) (grid_of te) /\
  hasWinningLine te = ticket_wins (results g) (grid_of te).
Proof.
  intros Hr Hte. destruct (reachable_inv g Hr) as (_ & _ & Hh & Hw).
  apply (Forall_forall _ _) with (x := te) in Hh, Hw; [|done..].
  rewrite Hw. by rewrite (ticket_wins_page (results g)).
Qed.

(** ** The draw stops *)

(** [n] successive firings of the draw interval. *)
Fixpoint run_ticks (n : nat) (g : game) : Rand game :=
  match n with
  | O => rret g
  | S n' => let* g1 := drawItem g in run_ticks n' g1
  end.

Lemma drawItem_stopped g rs :
  gameActive g = false \/ items g = [] -> drawItem g rs = Some (stopDraw g, rs).
Proof.
  unfold drawItem. intros [Ha|Hi]; [by rewrite Ha, andb_false_r|by rewrite Hi].
Qed.

Lemma drawItem_total g rs :
  gameActive g = true -> items g <> [] -> (length (items g) - 1 <= length rs)%nat ->
  exists g1, drawItem g rs = Some (g1, drop (length (items g) - 1) rs) /\
    length (items g1) = (length (items g) - 1)%nat.
Proof.
  intros Ha Hne Hl. unfold drawItem. rewrite Ha, andb_true_r.
  assert ((0 <? length (items g))%nat = true) as ->.
  { apply Nat.ltb_lt. destruct (items g); [done|simpl; lia]. }
  destruct (shuffle_loop_total (length (items g) - 1) (items g) rs Hl) as [sh Hs].
  destruct (shuffle_loop_spec _ _ _ _ _ Hs) as [Hp _].
  destruct (pop_nonempty sh) as (x & rest & Hpop & Hlen).
  { intros ->. by apply Permutation_nil in Hp. }
  unfold shuffleArray. rewrite (rbind_Some _ _ _ _ _ Hs). unfold rret. rewrite Hpop.
  eexists. split; [reflexivity|]. rewrite (proj1 (highlightTickets_frame _ _)). simpl.
  apply Permutation_length in Hp. lia.
Qed.

Lemma run_ticks_stopped n g rs :
  timers_inv g -> gameActive g = false ->
  exists g', run_ticks n g rs = Some (g', rs) /\ gameActive g' = false /\ timers g' = [].
Proof.
  revert g. induction n as [|n IH]; intros g Ht Ha.
  - exists g. destruct Ht as [_ Ht]. rewrite Ha in Ht. by split_and!.
  - simpl. rewrite (rbind_Some _ _ _ _ _ (drawItem_stopped g rs (or_introl Ha))).
    apply IH; [by apply stopDraw_timers_inv|done].
Qed.

Lemma run_ticks_stop g rs :
  game_inv g -> (tri (length (items g)) <= length rs)%nat ->
  exists g' rs', run_ticks (S (length (items g))) g rs = Some (g', rs') /\
    gameActive g' = false /\ timers g' = [].
Proof.
  remember (length (items g)) as n eqn:En. revert g rs En.
  induction n as [|n IH]; intros g rs En Hg Hs.
  - simpl. symmetry in En. apply nil_length_inv in En.
    rewrite (rbind_Some _ _ _ _ _ (drawItem_stopped g rs (or_intror En))). simpl.
    exists (stopDraw g), rs. split_and!; [done|done|]. apply stopDraw_timers_inv, Hg.
  - destruct (gameActive g) eqn:Ha.
    + assert (items g <> []) as Hne by (intros E; rewrite E in En; done).
      simpl in Hs. destruct (drawItem_total g rs Ha Hne ltac:(lia)) as (g1 & Hd & Hl).
      destruct (IH g1 (drop (length (items g) - 1) rs)) as (g' & rs' & Hr & Hf);
        [lia|by apply (drawItem_inv g rs g1 _ Hg Hd)|rewrite length_drop; lia|].
      exists g', rs'. split; [|done]. cbn [run_ticks]. rewrite (rbind_Some _ _ _ _ _ Hd).
      destruct n as [|n']; [|done]. simpl in Hr |- *. exact Hr.
    + destruct (run_ticks_stopped (S (S n)) g rs) as (g' & Hr & Hf); [apply Hg|done|].
      by exists g', rs.
Qed.

(** C10: the draw always ends: from every reachable page, once the
    random stream has the samples the shuffles need, at most
    [length items + 1] firings of the interval leave the game stopped
    with no interval scheduled, so no further [drawItem] runs. *)
Theorem draw_terminates g rs :
  reachable g -> (tri (length (items g)) <= length rs)%nat ->
  exists g' rs', run_ticks (S (length (items g))) g rs = Some (g', rs') /\
    gameActive g' = false /\ timers g' = [].
Proof. intros Hr Hs. apply run_ticks_stop; [by apply reachable_inv|done]. Qed.

(** ** Alerts and inputs *)

Definition newly_winning (te : ticket_el) : bool := hasWinningLine te && negb (te_winner te).

Lemma check_tickets_alerts g tes :
  alerts (check_tickets g tes).1 =
    alerts g ++ replicate (length (filter (fun te => newly_winning te = true) tes)) AlertWin /\
  (gameActive (check_tickets g tes).1 = false \/
   (gameActive (check_tickets g tes).1 = gameActive g /\
    filter (fun te => newly_winning te = true) tes = [])).
Proof.
  revert g. induction tes as [|te tes IH]; intros g; simpl.
  - rewrite app_nil_r. split; [done|by right].
  - unfold check_ticket. fold (newly_winning te). destruct (newly_winning te) eqn:Hn.
    + destruct (check_tickets _ tes) as [g2 tes2] eqn:E. simpl.
      rewrite filter_cons_True by done. destruct (IH (push_alert AlertWin (stopDraw
        (mkGame (items g) false (drawInterval g) (timers g) (next_timer g) (results g)
           (tickets g) (start_disabled g) (alerts g))))) as [Ha Hact].
      unfold push_alert in Ha, Hact. rewrite E in Ha, Hact. simpl in Ha, Hact |- *.
      split; [by rewrite Ha, <-app_assoc|]. left. by destruct Hact as [|[-> _]].
    + destruct (check_tickets g tes) as [g2 tes2] eqn:E. simpl.
      rewrite filter_cons_False by congruence. specialize (IH g). rewrite E in IH. done.
Qed.

(** C17: [checkWinningTickets] visits every ticket: each ticket that has a
    winning line and no [winner] class yet gets the class and its own win
    alert, so one draw that completes lines on [k] tickets schedules [k]
    alerts (and [k] calls of [stopDraw]); after the check every ticket
    with a winning line is flagged, and the game is stopped when [k > 0]. *)
Theorem checkWinningTickets_alerts g :
  alerts (checkWinningTickets g) =
    alerts g ++ replicate (length (filter (fun te => newly_winning te = true) (tickets g))) AlertWin /\
  (length (filter (fun te => newly_winning te = true) (tickets g)) <> 0%nat ->
   gameActive (checkWinningTickets g) = false) /\
  Forall (fun te => hasWinningLine te = true -> te_winner te = true) (tickets (checkWinningTickets g)).
Proof.
  destruct (check_tickets_alerts g (tickets g)) as [Ha Hact].
  destruct (check_tickets_frame g (tickets g) _ _ (surjective_pairing _)) as (_ & _ & _ & _ & HF).
  unfold checkWinningTickets. destruct (check_tickets g (tickets g)) as [g1 tes]. simpl in *.
  split_and!; [done| |].
  - intros Hk. destruct Hact as [|[_ Hnil]]; [done|]. by rewrite Hnil in Hk.
  - apply (Forall2_transport _ (fun _ => True) _ _ _ HF); [by apply Forall_true|].
    intros te te' [Hrows Hw] _. unfold hasWinningLine. rewrite Hrows, Hw. fold (hasWinningLine te).
    intros ->. apply orb_true_r.
Qed.

Lemma onGenerate_accept_alerts p g rs g' rs' :
  (numberOfTickets_of p <? 1) || (20 <? numberOfTickets_of p) = false ->
  onGenerate p g rs = Some (g', rs') -> alerts g' = alerts g.
Proof.
  intros Hc. unfold onGenerate. rewrite Hc. intros H.
  apply rbind_inv in H as (ts & rs1 & _ & H). apply rbind_inv in H as (tes & rs2 & _ & [= <- _]).
  done.
Qed.

(** C24: [parseInt(input) || 5] and the range check: the generate button
    only alerts, leaving the page and the random stream untouched, exactly
    when the input parses to a number below 0 or above 20.  An input of 0
    (falsy) or one that does not parse ([NaN]) is not rejected: it
    generates 5 tickets. *)
Theorem onGenerate_rejects p g rs :
  (exists n, p = Some n /\ (n < 0 \/ 20 < n)) <->
  onGenerate p g rs = Some (push_alert AlertBadCount g, rs).
Proof.
  split.
  - intros (n & -> & Hn). unfold onGenerate, numberOfTickets_of.
    destruct (Z.eqb_spec n 0) as [->|_]; [lia|].
    assert ((n <? 1) || (20 <? n) = true) as -> by (apply orb_true_iff; lia). done.
  - intros H. destruct ((numberOfTickets_of p <? 1) || (20 <? numberOfTickets_of p)) eqn:Hc.
    + apply orb_true_iff in Hc. destruct p as [n|]; simpl in Hc.
      * exists n. split; [done|]. destruct (Z.eqb_spec n 0); lia.
      * lia.
    + apply onGenerate_accept_alerts in H; [|done]. simpl in H.
      apply (f_equal length) in H. rewrite length_app in H. simpl in H. lia.
Qed.

(** C18: an input of 0, or one that does not parse, makes the generate
    button reset the game and show 5 fresh tickets ([parseInt(...) || 5]),
    where a count of 0 is out of the range 1..20 the button announces. *)
Theorem onGenerate_default_five p g rs g' rs' :
  p = Some 0 \/ p = None -> onGenerate p g rs = Some (g', rs') ->
  length (tickets g') = 5%nat /\ gameActive g' = false /\ results g' = [] /\
  items g' = generateNumbersList.
Proof.
  intros Hp. assert (numberOfTickets_of p = 5) as Hn by (by destruct Hp as [->| ->]).
  unfold onGenerate. rewrite Hn. simpl. intros H.
  apply rbind_inv in H as (ts & rs1 & Hts & H). apply rbind_inv in H as (tes & rs2 & Hd & [= <- _]).
  apply (rrepeat_spec (fun _ => True)) in Hts as [Hl _]; [|done].
  unfold displayTickets in Hd. apply rbind_inv in Hd as (grids & rs3 & Hg & [= <- _]).
  simpl. rewrite length_fmap, (rmap_length _ _ _ _ _ Hg), Hl. done.
Qed.

Lemma onGenerate_cases p g rs g' rs' :
  onGenerate p g rs = Some (g', rs') -> g' = push_alert AlertBadCount g \/ gameActive g' = false.
Proof.
  unfold onGenerate. destruct (_ || _); [intros [= <- _]; by left|].
  intros H. apply rbind_inv in H as (ts & rs1 & _ & H).
  apply rbind_inv in H as (tes & rs2 & _ & [= <- _]). by right.
Qed.

(** C25: a reachable page without tickets is idle: no draw runs, and the
    start button only shows the "generate tickets first" alert. *)
Theorem reachable_no_tickets_idle g :
  reachable g -> tickets g = [] ->
  gameActive g = false /\ startDraw g = push_alert AlertNoTickets g.
Proof.
  intros Hr Ht. split; [|unfold startDraw; by rewrite decide_True].
  revert Ht. induction Hr as [|g g' Hr IH Hs]; [done|]. intros Ht.
  inversion Hs as [e ? ? rs rs' _ H]; subst. destruct e; simpl in H.
  - apply onGenerate_cases in H as [->|]; [by apply IH|done].
  - injection H as <- _. unfold startDraw in Ht |- *.
    destruct (decide (tickets g = [])) as [E|E]; [by apply IH|].
    destruct (gameActive g); [done|]. done.
  - by injection H as <- _.
  - apply drawItem_cases in H as [(Ha & x & rest & _ & ->)|(_ & ->)]; [|done].
    destruct (highlightTickets_frame x (mkGame rest (gameActive g) (drawInterval g) (timers g)
      (next_timer g) (results g ++ [x]) (tickets g) (start_disabled g) (alerts g)))
      as (_ & _ & _ & _ & HF).
    rewrite Ht in HF. apply Forall2_nil_inv_r in HF. simpl in HF. by rewrite (IH HF) in Ha.
Qed.

(** C26: a stopped game is not final: on a page with tickets whose draw
    has stopped (after a win, for instance), the start button starts a new
    interval that continues the draw from the numbers left in the pool,
    with the drawn numbers, the highlights and the [winner] classes kept. *)
Theorem startDraw_resumes g :
  tickets g <> [] -> gameActive g = false ->
  gameActive (startDraw g) = true /\ timers (startDraw g) = timers g ++ [next_timer g] /\
  items (startDraw g) = items g /\ results (startDraw g) = results g /\
  tickets (startDraw g) = tickets g.
Proof.
  intros Ht Ha. unfold startDraw. rewrite decide_False by done. rewrite Ha. by split_and!.
Qed.

(** ** The tickets on the page *)

(** Reading the [data-value] of the cells of a rendered grid gives the
    grid back. *)
Lemma grid_of_ticket_el_of_grid gr : grid_of (ticket_el_of_grid gr) = gr.
Proof.
  unfold grid_of, ticket_el_of_grid. simpl. rewrite <-list_fmap_compose.
  rewrite <-(list_fmap_id gr) at 2. apply list_fmap_ext. intros _ rw _. simpl.
  rewrite <-list_fmap_compose. apply list_fmap_id.
Qed.

(** A ticket element shows the placement of a valid ticket. *)
Definition ticket_placed (te : ticket_el) : Prop :=
  exists t, valid_ticket t /\ place_all (empty_grid, rows_init) t = Some (grid_of te, [5; 5; 5]).

Lemma rmap_organizeTicket_placed ts rs grids rs' :
  Forall valid_ticket ts -> rmap organizeTicket ts rs = Some (grids, rs') ->
  Forall2 (fun t gr => place_all (empty_grid, rows_init) t = Some (gr, [5; 5; 5])) ts grids.
Proof.
  intros Hv. revert rs grids. induction Hv as [|t ts Ht _ IH]; intros rs grids H; simpl in H.
  - injection H as <- _. constructor.
  - destruct (organizeTicket_valid t rs Ht) as (gr & Ho & Hall & _).
    rewrite (rbind_Some _ _ _ _ _ Ho) in H.
    apply rbind_inv in H as (grs & rs2 & Hr & [= <- <-]). constructor; [done|]. by apply (IH rs).
Qed.

Lemma onGenerate_tickets p g rs g' rs' :
  onGenerate p g rs = Some (g', rs') -> tickets g' = tickets g \/ Forall ticket_placed (tickets g').
Proof.
  unfold onGenerate. destruct (_ || _); [intros [= <- _]; by left|]. intros H. right.
  apply rbind_inv in H as (ts & rs1 & Hts & H). apply rbind_inv in H as (tes & rs2 & Hd & [= <- _]).
  apply generateMultipleTickets_ok in Hts as [_ Hv]. simpl.
  unfold displayTickets in Hd. apply rbind_inv in Hd as (grids & rs3 & Hg & [= <- _]).
  apply Forall_fmap. apply (Forall2_transport _ _ _ _ _ (rmap_organizeTicket_placed _ _ _ _ Hv Hg) Hv).
  intros t gr Hall Ht. exists t. simpl. by rewrite grid_of_ticket_el_of_grid.
Qed.

Lemma drawItem_tickets g rs g' rs' :
  drawItem g rs = Some (g', rs') -> Forall2 (fun te te' => grid_of te' = grid_of te) (tickets g) (tickets g').
Proof.
  assert (forall l : list ticket_el, Forall2 (fun te te' => grid_of te' = grid_of te) l l) as Hrefl.
  { intros l. by apply Forall_Forall2_diag, Forall_true. }
  intros H. apply drawItem_cases in H as [(_ & x & rest & _ & ->)|(_ & ->)]; [|apply Hrefl].
  destruct (highlightTickets_frame x (mkGame rest (gameActive g) (drawInterval g) (timers g)
    (next_timer g) (results g ++ [x]) (tickets g) (start_disabled g) (alerts g)))
    as (_ & _ & _ & _ & HF).
  eapply Forall2_impl; [exact HF|]. intros te te' [Hrows _].
  unfold grid_of. rewrite Hrows. apply highlight_ticket_grid.
Qed.

Lemma reachable_tickets_placed g : reachable g -> Forall ticket_placed (tickets g).
Proof.
  induction 1 as [|g g' Hr IH Hs]; [constructor|].
  inversion Hs as [e ? ? rs rs' _ H]; subst. destruct e; simpl in H.
  - by apply onGenerate_tickets in H as [->|].
  - injection H as <- _. unfold startDraw. by repeat case_match.
  - injection H as <- _. constructor.
  - apply (Forall2_transport _ _ _ _ _ (drawItem_tickets _ _ _ _ H) IH).
    intros te te' Hg (t & Hv & Hall). exists t. by rewrite Hg.
Qed.

(** C11: the ticket generator, the grid packer and the page compose into
    well-formed tickets: in every reachable page each [.ticket] shows
    the placement of a valid ticket (15 distinct numbers of 1..99, at most
    3 per column), in 3 rows of 10 cells with exactly 5 numbers per row,
    each number of the ticket once and in its own column.  In particular
    no cell of a page holds a filler, so the filler 100 of column 9 never
    appears. *)
Theorem reachable_tickets_wf g :
  reachable g ->
  Forall (fun te => exists t, valid_ticket t /\
    place_all (empty_grid, rows_init) t = Some (grid_of te, [5; 5; 5]) /\
    gwf (grid_of te) /\ Forall (fun rw : row => count_some rw = 5%nat) (grid_of te) /\
    grid_numbers (grid_of te) ≡ₚ t /\ cells_in_columns (grid_of te)) (tickets g).
Proof.
  intros Hr. eapply Forall_impl; [exact (reachable_tickets_placed g Hr)|].
  intros te (t & Hv & Hall). exists t. split_and!; try done.
  - destruct (place_all_balanced t Hv) as (gr & Hall' & Hg & _). congruence.
  - destruct (place_all_balanced t Hv) as (gr & Hall' & _ & H5). congruence.
  - by destruct (place_all_cells _ _ _ Hall).
  - by destruct (place_all_cells _ _ _ Hall).
Qed.

Lemma row_complete_all_drawn R (rw : row) :
  count_some rw = 5%nat -> (forall v, Some v ∈ rw -> v ∈ R) -> row_complete R rw = true.
Proof.
  intros H5 Hall. unfold row_complete. rewrite H5. simpl. apply forallb_Forall, Forall_forall.
  intros [v|] Hv; [|done]. apply bool_decide_eq_true. by apply Hall.
Qed.

(** C13: no ticket can be missed: on a reachable page whose pool is
    empty, that is once all of 1..99 has been drawn, every ticket has the
    [winner] class. *)
Theorem reachable_exhausted_all_win g :
  reachable g -> items g = [] -> Forall (fun te => te_winner te = true) (tickets g).
Proof.
  intros Hr Hi. destruct (reachable_inv g Hr) as (_ & Hp & Hh & Hw).
  unfold pool_inv in Hp. rewrite Hi, app_nil_r in Hp.
  pose proof (reachable_tickets_placed g Hr) as Hpl.
  apply Forall_forall. intros te Hte.
  apply (Forall_forall _ _) with (x := te) in Hh, Hw, Hpl; [|done..].
  destruct Hpl as (t & Hv & Hall). rewrite Hw, (ticket_wins_page (results g)) by done.
  destruct (place_all_balanced t Hv) as (gr & Hall' & [Hlen _] & H5).
  rewrite Hall in Hall'. injection Hall' as <-.
  destruct (place_all_cells _ _ _ Hall) as [Hnum _].
  destruct (grid_of te) as [|rw rws] eqn:Eg; [done|].
  unfold ticket_wins. simpl. apply orb_true_intro. left.
  apply Forall_cons in H5 as [H5 _]. apply row_complete_all_drawn; [done|].
  intros v Hin. rewrite Hp, elem_of_seqZ.
  assert (v ∈ t) as Hvt.
  { rewrite <-Hnum. unfold grid_numbers. simpl. apply elem_of_app. left.
    by apply row_numbers_elem. }
  destruct Hv as (_ & _ & Hrange & _). apply (Forall_forall _ _) with (x := v) in Hrange; [lia|done].
Qed.

(** ** The draw engine's state machine

    The specification describes the draw engine as the state machine
    Idle -> Active -> Stopped, where a reset returns to Idle.  A page is
    [Active] while [gameActive], [Idle] when no number has been drawn since
    the last reset, and [Stopped] otherwise. *)

Inductive phase := Idle | Active | Stopped.

Definition phase_of (g : game) : phase :=
  if gameActive g then Active else if decide (results g = []) then Idle else Stopped.

(** The operations of the specification's draw engine: [start],
    [drawOne] that keeps the draw running, [drawOne] or the win check that
    stops it, [reset], and operations that change nothing. *)
Inductive engine_op := op_start | op_draw | op_stop | op_reset | op_none.

(** The specification's machine: [start] from Idle (and a no-op while
    Active), [drawOne] only while Active, [reset] from anywhere. *)
Definition spec_next (o : engine_op) (p : phase) : option phase :=
  match o, p with
  | op_start, Idle => Some Active
  | op_start, Active => Some Active
  | op_draw, Active => Some Active
  | op_stop, Active => Some Stopped
  | op_reset, _ => Some Idle
  | op_none, p => Some p
  | _, _ => None
  end.

(** The operation an event requests, as the specification names it: a
    count outside 1..20 is rejected, otherwise generation resets; start
    with no ticket is rejected; a tick is a [drawOne], which stops the
    engine when the pool is empty or when a win is announced. *)
Definition event_op (e : event) (g g' : game) : engine_op :=
  match e with
  | ClickGenerate p =>
      if (numberOfTickets_of p <? 1) || (20 <? numberOfTickets_of p) then op_none else op_reset
  | ClickStart => if decide (tickets g = []) then op_none else op_start
  | ClickReset => op_reset
  | Tick _ =>
      if decide (items g = []) then op_stop
      else if decide (length (alerts g') = length (alerts g)) then op_draw else op_stop
  end.

Lemma check_tickets_active g tes :
  gameActive (check_tickets g tes).1 =
    gameActive g && bool_decide (filter (fun te => newly_winning te = true) tes = []).
Proof.
  revert g. induction tes as [|te tes IH]; intros g; simpl; [by rewrite andb_true_r|].
  unfold check_ticket. fold (newly_winning te). destruct (newly_winning te) eqn:Hn.
  - destruct (check_tickets _ tes) as [g2 tes2] eqn:E. simpl.
    rewrite filter_cons_True by done. rewrite bool_decide_eq_false_2 by done.
    rewrite andb_false_r. specialize (IH (push_alert AlertWin (stopDraw
        (mkGame (items g) false (drawInterval g) (timers g) (next_timer g) (results g)
           (tickets g) (start_disabled g) (alerts g))))).
    unfold push_alert in IH. rewrite E in IH. exact IH.
  - destruct (check_tickets g tes) as [g2 tes2] eqn:E. simpl.
    rewrite filter_cons_False by congruence. specialize (IH g). rewrite E in IH. exact IH.
Qed.

(** What the win check after a draw does to the globals: one alert per
    newly winning ticket, and the game stops exactly when there is one. *)
Lemma checkWinningTickets_outcome g :
  let k := length (filter (fun te => newly_winning te = true) (tickets g)) in
  alerts (checkWinningTickets g) = alerts g ++ replicate k AlertWin /\
  gameActive (checkWinningTickets g) = gameActive g && bool_decide (k = 0%nat) /\
  results (checkWinningTickets g) = results g.
Proof.
  intros k. destruct (check_tickets_alerts g (tickets g)) as [Ha _].
  pose proof (check_tickets_active g (tickets g)) as Hact.
  destruct (check_tickets_frame g (tickets g) _ _ (surjective_pairing _)) as (_ & Hr & _).
  unfold checkWinningTickets. destruct (check_tickets g (tickets g)) as [g1 tes]. simpl in *.
  split_and!; [done| |done]. rewrite Hact. f_equal. apply bool_decide_ext.
  subst k. rewrite length_zero_iff_nil. done.
Qed.

Lemma onGenerate_reset p g rs g' rs' :
  (numberOfTickets_of p <? 1) || (20 <? numberOfTickets_of p) = false ->
  onGenerate p g rs = Some (g', rs') -> phase_of g' = Idle.
Proof.
  intros Hc. unfold onGenerate. rewrite Hc. intros H.
  apply rbind_inv in H as (ts & rs1 & _ & H). apply rbind_inv in H as (tes & rs2 & _ & [= <- _]).
  done.
Qed.

(** C14: the page refines the specification's draw engine: on every
    reachable page, each event moves the engine's phase exactly as the
    operation it requests does in the specification's machine
    ([spec_next]): a reset or an accepted generation leads to Idle, a
    start with tickets from Idle to Active, a tick keeps the draw Active
    unless the pool is empty or a win is announced, which lead to
    Stopped.  The one transition outside the specification is the start
    button on a stopped draw, which goes back to Active without a reset. *)
Theorem step_refines_engine g e rs g' rs' :
  reachable g -> enabled e g -> handle e g rs = Some (g', rs') ->
  spec_next (event_op e g g') (phase_of g) = Some (phase_of g') \/
  (e = ClickStart /\ phase_of g = Stopped /\ phase_of g' = Active).
Proof.
  intros Hr He H. destruct (reachable_inv g Hr) as ([Hd Ht] & Hp & _). unfold pool_inv in Hp.
  destruct e as [p| | |h]; simpl in H |- *.
  - destruct ((numberOfTickets_of p <? 1) || (20 <? numberOfTickets_of p)) eqn:Hc.
    + left. unfold onGenerate in H. rewrite Hc in H. injection H as <- _. done.
    + left. rewrite (onGenerate_reset _ _ _ _ _ Hc H). by destruct (phase_of g).
  - injection H as <- _. unfold startDraw.
    destruct (decide (tickets g = [])); [by left|].
    destruct (gameActive g) eqn:Ha; [left; unfold phase_of; by rewrite Ha|].
    unfold phase_of. rewrite Ha. case_decide; [left; reflexivity|right; split_and!; reflexivity].
  - injection H as <- _. left. by destruct (phase_of g).
  - left. simpl in He. destruct (gameActive g) eqn:Ha; [|by rewrite Ht in He; apply not_elem_of_nil in He].
    unfold phase_of at 1. rewrite Ha.
    apply drawItem_cases in H as [(_ & x & rest & Hperm & ->)|([Hf|Hi] & ->)]; [|congruence|].
    + rewrite decide_False by (intros E; rewrite E in Hperm; apply Permutation_nil in Hperm; by apply app_eq_nil in Hperm as [_ ?]).
      unfold highlightTickets.
      cbn [items gameActive drawInterval timers next_timer results tickets start_disabled alerts].
      rewrite Ha. destruct (checkWinningTickets_outcome (mkGame rest true
        (drawInterval g) (timers g) (next_timer g) (results g ++ [x])
        (highlight_ticket x <$> tickets g) (start_disabled g) (alerts g))) as (Hal & Hact & Hres).
      simpl in Hal, Hact, Hres. rewrite Hal, length_app, length_replicate.
      unfold phase_of. rewrite Hact, Hres.
      destruct (length (filter _ _)) as [|k]; simpl.
      * rewrite decide_True by lia. done.
      * rewrite decide_False by lia. rewrite decide_False; [done|].
        intros E. by apply app_eq_nil in E as [_ ?].
    + rewrite decide_True by done. unfold phase_of. simpl. rewrite decide_False; [done|].
      intros E. rewrite E, Hi in Hp. simpl in Hp. by apply Permutation_nil in Hp.
Qed.

(** ** A concrete game

    Scripted events for the witnesses: one ticket ([ex_ticket]) is
    generated, the draw is started, and five firings of the interval draw
    3, 19, 40, 58 and 83, the first row of its grid. *)

Definition enabledb (e : event) (g : game) : bool :=
  match e with Tick h => bool_decide (h ∈ timers g) | _ => true end.

Fixpoint run_events (es : list (event * list Z)) (g : game) : option game :=
  match es with
  | [] => Some g
  | (e, rs) :: es' =>
      if enabledb e g then
        match handle e g rs with Some (g1, _) => run_events es' g1 | None => None end
      else None
  end.

Lemma run_events_reachable es g g' : reachable g -> run_events es g = Some g' -> reachable g'.
Proof.
  revert g. induction es as [|[e rs] es IH]; intros g Hr H; simpl in H; [by injection H as <-|].
  destruct (enabledb e g) eqn:He; [|done]. destruct (handle e g rs) as [[g1 rs1]|] eqn:Eh; [|done].
  apply (IH g1); [|done]. apply (reach_step g); [done|]. apply (step_event e g g1 rs rs1); [|done].
  destruct e; simpl in He |- *; try done. by apply bool_decide_eq_true in He.
Qed.

(** The samples that make [drawItem] draw [v]: the first swap of the
    shuffle moves [v] to the end of [items], the later swaps (with index
    0) leave it there, and [pop] takes it. *)
Definition draw_samples (g : game) (v : Z) : list Z :=
  match index_of v (items g) with
  | Some j => sample_for (Z.of_nat (length (items g))) (Z.of_nat j) :: replicate (length (items g) - 2) 0
  | None => []
  end.

Fixpoint draw_script (vs : list Z) (g : game) : list (event * list Z) :=
  match vs with
  | [] => []
  | v :: vs' =>
      (Tick 0, draw_samples g v) ::
      match drawItem g (draw_samples g v) with Some (g1, _) => draw_script vs' g1 | None => [] end
  end.

Definition ex_start_script : list (event * list Z) :=
  [(ClickGenerate (Some 1), stream_for ex_ticket); (ClickStart, [])].

Definition ex_started : game :=
  Eval vm_compute in match run_events ex_start_script game_init with Some g => g | None => game_init end.

Definition ex_win_script : list (event * list Z) :=
  Eval vm_compute in draw_script [3; 19; 40; 58; 83] ex_started.

Definition ex_mid : game :=
  Eval vm_compute in match run_events (take 2 ex_win_script) ex_started with Some g => g | None => ex_started end.

Definition ex_won : game :=
  Eval vm_compute in match run_events ex_win_script ex_started with Some g => g | None => ex_started end.

Definition ex_won_ticket : ticket_el := Eval vm_compute in hd (mkTicketEl [] false) (tickets ex_won).

Lemma ex_started_reachable : reachable ex_started.
Proof. apply (run_events_reachable ex_start_script game_init); [constructor|vm_compute; reflexivity]. Qed.

Lemma ex_mid_reachable : reachable ex_mid.
Proof.
  apply (run_events_reachable (take 2 ex_win_script) ex_started);
    [exact ex_started_reachable|vm_compute; reflexivity].
Qed.

Lemma ex_won_reachable : reachable ex_won.
Proof.
  apply (run_events_reachable ex_win_script ex_started);
    [exact ex_started_reachable|vm_compute; reflexivity].
Qed.

(** After the win, start again and draw until the pool is empty. *)
Fixpoint drain_script (fuel : nat) (g : game) : list (event * list Z) :=
  match fuel with
  | O => []
  | S f =>
      if decide (items g = []) then []
      else if gameActive g then
        let e := (Tick (default 0%nat (head (timers g))), replicate (length (items g) - 1) 0) in
        match handle e.1 g e.2 with Some (g1, _) => e :: drain_script f g1 | None => [] end
      else (ClickStart, []) :: drain_script f (startDraw g)
  end.

Definition ex_drain_script : list (event * list Z) := Eval vm_compute in drain_script 200 ex_won.

Definition ex_drained : game :=
  Eval vm_compute in match run_events ex_drain_script ex_won with Some g => g | None => ex_won end.

Lemma ex_drained_reachable : reachable ex_drained.
Proof.
  apply (run_events_reachable ex_drain_script ex_won); [exact ex_won_reachable|vm_compute; reflexivity].
Qed.

Definition ex_five_stream : list Z := concat (replicate 5 (stream_for ex_ticket)).

Definition ex_five : game :=
  Eval vm_compute in match onGenerate (Some 0) game_init ex_five_stream with
                     | Some (g, _) => g | None => game_init end.

(** ** Witnesses *)

Lemma reachable_timers_witness :
  reachable ex_mid /\
  start_disabled ex_mid = gameActive ex_mid /\ (gameActive ex_mid = true <-> timers ex_mid <> []) /\
  (forall h, h ∈ timers ex_mid -> drawInterval ex_mid = Some h /\ timers ex_mid = [h]).
Proof. split; [exact ex_mid_reachable|]. apply reachable_timers, ex_mid_reachable. Defined.

Lemma reachable_pool_witness :
  reachable ex_mid /\
  results ex_mid ++ items ex_mid ≡ₚ seqZ 1 99 /\ NoDup (results ex_mid ++ items ex_mid).
Proof. split; [exact ex_mid_reachable|]. apply reachable_pool, ex_mid_reachable. Defined.

Lemma reachable_win_refinement_witness :
  reachable ex_won /\ ex_won_ticket ∈ tickets ex_won /\
  te_winner ex_won_ticket = ticket_wins (results ex_won) (grid_of ex_won_ticket) /\
  hasWinningLine ex_won_ticket = ticket_wins (results ex_won) (grid_of ex_won_ticket).
Proof.
  assert (ex_won_ticket ∈ tickets ex_won) as Hin by (vm_compute; constructor).
  split; [exact ex_won_reachable|]. split; [exact Hin|].
  apply reachable_win_refinement; [exact ex_won_reachable|exact Hin].
Defined.

Lemma draw_terminates_witness :
  reachable ex_mid /\ (tri (length (items ex_mid)) <= length (replicate 4656 0))%nat /\
  exists g' rs', run_ticks (S (length (items ex_mid))) ex_mid (replicate 4656 0) = Some (g', rs') /\
    gameActive g' = false /\ timers g' = [].
Proof.
  assert (tri (length (items ex_mid)) <= length (replicate 4656 0))%nat as Hs
    by (apply Nat.leb_le; vm_compute; reflexivity).
  split; [exact ex_mid_reachable|]. split; [exact Hs|].
  apply draw_terminates; [exact ex_mid_reachable|exact Hs].
Defined.

Lemma onGenerate_default_five_witness :
  onGenerate (Some 0) game_init ex_five_stream = Some (ex_five, []) /\
  length (tickets ex_five) = 5%nat /\ gameActive ex_five = false /\ results ex_five = [] /\
  items ex_five = generateNumbersList.
Proof.
  assert (onGenerate (Some 0) game_init ex_five_stream = Some (ex_five, [])) as H
    by (vm_compute; reflexivity).
  split; [exact H|]. apply (onGenerate_default_five (Some 0) game_init ex_five_stream ex_five []);
    [left; reflexivity|exact H].
Defined.

Lemma reachable_no_tickets_idle_witness :
  reachable game_init /\ tickets game_init = [] /\
  gameActive game_init = false /\ startDraw game_init = push_alert AlertNoTickets game_init.
Proof.
  split; [constructor|]. split; [reflexivity|].
  apply reachable_no_tickets_idle; [constructor|reflexivity].
Defined.

Lemma startDraw_resumes_witness :
  tickets ex_won <> [] /\ gameActive ex_won = false /\
  gameActive (startDraw ex_won) = true /\ timers (startDraw ex_won) = timers ex_won ++ [next_timer ex_won] /\
  items (startDraw ex_won) = items ex_won /\ results (startDraw ex_won) = results ex_won /\
  tickets (startDraw ex_won) = tickets ex_won.
Proof.
  assert (tickets ex_won <> []) as Ht by (vm_compute; discriminate).
  assert (gameActive ex_won = false) as Ha by reflexivity.
  split; [exact Ht|]. split; [exact Ha|]. apply startDraw_resumes; [exact Ht|exact Ha].
Defined.

Lemma reachable_tickets_wf_witness :
  reachable ex_won /\
  Forall (fun te => exists t, valid_ticket t /\
    place_all (empty_grid, rows_init) t = Some (grid_of te, [5; 5; 5]) /\
    gwf (grid_of te) /\ Forall (fun rw : row => count_some rw = 5%nat) (grid_of te) /\
    grid_numbers (grid_of te) ≡ₚ t /\ cells_in_columns (grid_of te)) (tickets ex_won).
Proof. split; [exact ex_won_reachable|]. apply reachable_tickets_wf, ex_won_reachable. Defined.

Lemma reachable_exhausted_all_win_witness :
  reachable ex_drained /\ items ex_drained = [] /\
  Forall (fun te => te_winner te = true) (tickets ex_drained).
Proof.
  assert (items ex_drained = []) as Hi by (vm_compute; reflexivity).
  split; [exact ex_drained_reachable|]. split; [exact Hi|].
  apply reachable_exhausted_all_win; [exact ex_drained_reachable|exact Hi].
Defined.

Lemma step_refines_engine_witness :
  reachable ex_won /\ enabled ClickStart ex_won /\ handle ClickStart ex_won [] = Some (startDraw ex_won, []) /\
  (spec_next (event_op ClickStart ex_won (startDraw ex_won)) (phase_of ex_won) =
     Some (phase_of (startDraw ex_won)) \/
   (ClickStart = ClickStart /\ phase_of ex_won = Stopped /\ phase_of (startDraw ex_won) = Active)).
Proof.
  assert (handle ClickStart ex_won [] = Some (startDraw ex_won, [])) as H by reflexivity.
  split; [exact ex_won_reachable|]. split; [exact I|]. split; [exact H|].
  apply (step_refines_engine ex_won ClickStart [] (startDraw ex_won) []); [exact ex_won_reachable|exact I|exact H].
Defined.
